(** * The crawling and content-lifecycle core of [backend/api.py]

    A shallow embedding of the browser crawler ([_scrape_with_browser_sync]),
    of the ingestion endpoint ([initialize_knowledge]) and of the two
    deletion endpoints ([remove_url], [clear_knowledge_base]), followed by
    the properties of the specification that concern them.

    Python strings are [string]s whose characters are the code points
    0..255; Python integers are [Z]; the [set] of visited URLs is a
    [gset string]; dictionaries with string keys are [gmap string _]. *)

From Stdlib Require Import ZArith Ascii String Lia.
From stdpp Require Import base option list sorting gmap sets strings pretty.

(** ** Python string operations used by the module *)

Module PyStr.

Definition ord (c : ascii) : nat := nat_of_ascii c.

(** [str.isspace] on a single character, which is also what the regular
    expression class [\s] matches on a [str] pattern. *)
Definition isspace (c : ascii) : bool :=
  let n := ord c in
  ((9 <=? n) && (n <=? 13)) || ((28 <=? n) && (n <=? 32))
  || (n =? 133) || (n =? 160).

Definition len (s : string) : Z := Z.of_nat (String.length s).

Definition startswith (s p : string) : bool := String.prefix p s.

Fixpoint lstrip_by (p : ascii -> bool) (s : string) : string :=
  match s with
  | EmptyString => EmptyString
  | String c s' => if p c then lstrip_by p s' else s
  end.

Fixpoint rstrip_by (p : ascii -> bool) (s : string) : string :=
  match s with
  | EmptyString => EmptyString
  | String c s' =>
      match rstrip_by p s' with
      | EmptyString => if p c then EmptyString else String c EmptyString
      | r => String c r
      end
  end.

(** [s.strip()] *)
Definition strip (s : string) : string :=
  rstrip_by isspace (lstrip_by isspace s).

(** [re.sub(r'\s+', ' ', s)]: every maximal run of whitespace becomes one
    space.  [in_run] tells whether the previous character was whitespace. *)
Fixpoint sub_ws_from (in_run : bool) (s : string) : string :=
  match s with
  | EmptyString => EmptyString
  | String c s' =>
      if isspace c
      then (if in_run then sub_ws_from true s'
            else String " "%char (sub_ws_from true s'))
      else String c (sub_ws_from false s')
  end.

Definition sub_ws (s : string) : string := sub_ws_from false s.

(** [c in s] for a character [c] *)
Fixpoint contains_char (c : ascii) (s : string) : bool :=
  match s with
  | EmptyString => false
  | String d s' => Ascii.eqb c d || contains_char c s'
  end.

(** [needle in s] for strings *)
Fixpoint contains (needle s : string) : bool :=
  String.prefix needle s ||
  match s with
  | EmptyString => false
  | String _ s' => contains needle s'
  end.

Definition remove_chars (p : ascii -> bool) : string -> string :=
  fix go s :=
    match s with
    | EmptyString => EmptyString
    | String c s' => if p c then go s' else String c (go s')
    end.

(** Splits at the first character satisfying [p]: the part before it and
    the part from it on ([None] when there is no such character). *)
Fixpoint break_at (p : ascii -> bool) (s : string) : string * option string :=
  match s with
  | EmptyString => (EmptyString, None)
  | String c s' =>
      if p c then (EmptyString, Some s)
      else let '(a, b) := break_at p s' in (String c a, b)
  end.

Definition is_upper (c : ascii) : bool := (65 <=? ord c) && (ord c <=? 90).
Definition is_lower (c : ascii) : bool := (97 <=? ord c) && (ord c <=? 122).
Definition is_digit (c : ascii) : bool := (48 <=? ord c) && (ord c <=? 57).
Definition is_ascii_alpha (c : ascii) : bool := is_upper c || is_lower c.

(** Lower-casing of the ASCII letters (the only letters the URL schemes
    and the JavaScript indicators are made of). *)
Definition lower_char (c : ascii) : ascii :=
  if is_upper c then ascii_of_nat (ord c + 32) else c.

Fixpoint lower (s : string) : string :=
  match s with
  | EmptyString => EmptyString
  | String c s' => String (lower_char c) (lower s')
  end.

Fixpoint all_chars (p : ascii -> bool) (s : string) : bool :=
  match s with
  | EmptyString => true
  | String c s' => p c && all_chars p s'
  end.

(** [l[:n]] on a list, with Python's meaning of a negative bound. *)
Definition slice_to {A} (l : list A) (n : Z) : list A :=
  if (0 <=? n)%Z then take (Z.to_nat n) l
  else take (Z.to_nat (Z.of_nat (length l) + n)) l.

End PyStr.

(** ** [urllib.parse.urlparse]

    The library function is not part of the repository; the model follows
    CPython's [urlsplit] for the two components the crawler reads, [scheme]
    and [netloc].  [None] stands for the [ValueError] raised on a network
    location with an unmatched bracket (the further validation of a
    bracketed host as an IP literal is not modelled). *)

Module Url.
Import PyStr.

Record ParseResult := { scheme : string; netloc : string; rest : string }.

Definition scheme_char (c : ascii) : bool :=
  is_ascii_alpha c || is_digit c
  || Ascii.eqb c "+"%char || Ascii.eqb c "-"%char || Ascii.eqb c "."%char.

Definition c0_or_space (c : ascii) : bool := ord c <=? 32.
Definition unsafe_byte (c : ascii) : bool :=
  (ord c =? 9) || (ord c =? 10) || (ord c =? 13).
Definition netloc_end (c : ascii) : bool :=
  Ascii.eqb c "/"%char || Ascii.eqb c "?"%char || Ascii.eqb c "#"%char.

(** [(scheme, remainder)] *)
Definition split_scheme (url : string) : string * string :=
  match break_at (Ascii.eqb ":"%char) url with
  | (String c0 before, Some (String _ after)) =>
      if is_ascii_alpha c0 && all_chars scheme_char (String c0 before)
      then (lower (String c0 before), after)
      else (EmptyString, url)
  | _ => (EmptyString, url)
  end.

Definition urlparse (url0 : string) : option ParseResult :=
  let url := remove_chars unsafe_byte (lstrip_by c0_or_space url0) in
  let '(sch, url) := split_scheme url in
  if startswith url "//" then
    let after := String.substring 2 (String.length url - 2) url in
    let '(loc, tl) := break_at netloc_end after in
    let lb := contains_char "["%char loc in
    let rb := contains_char "]"%char loc in
    if (lb && negb rb) || (rb && negb lb) then None
    else Some {| scheme := sch; netloc := loc;
                 rest := default EmptyString tl |}
  else Some {| scheme := sch; netloc := EmptyString; rest := url |}.

End Url.

(** ** Documents and rendered pages *)

(** Values stored under the keys of a [meta_data] dictionary. *)
Inductive MetaVal :=
  | MStr (s : string)
  | MInt (z : Z).

#[global] Instance MetaVal_eq_dec : EqDecision MetaVal.
Proof. solve_decision. Defined.

(** The dictionaries appended to [documents]. *)
Record Document := {
  doc_name : string;
  doc_content : string;
  doc_url : string;
  doc_meta_data : gmap string MetaVal;
}.

(** What [scrape_page] reads off the parsed page once the [script],
    [style] and [noscript] elements are removed:
    [soup.get_text(separator=' ', strip=True)], the text of the [title]
    element when there is one, and the [href] values of
    [soup.find_all('a', href=True)] in document order. *)
Record Soup := {
  soup_text : string;
  soup_title : option string;
  soup_hrefs : list string;
}.

(** The state shared by the nested calls of [scrape_page]: the two
    closed-over objects [documents] and [visited_urls], and the ordered
    log of the [page.goto] calls made so far. *)
Record CrawlState := {
  documents : list Document;
  visited_urls : gset string;
  goto_log : list string;
}.

Definition crawl_init : CrawlState :=
  {| documents := []; visited_urls := ∅; goto_log := [] |}.

(** What the body of the [for link in links[:max_links]] loop does with
    one [href]. *)
Inductive LinkAction :=
  | Continue
  | Follow (absolute_url : string)
  | RaiseError.

Definition same_netloc_action (absolute_url page_url : string) : LinkAction :=
  match Url.urlparse absolute_url, Url.urlparse page_url with
  | Some a, Some p =>
      if String.eqb (Url.netloc a) (Url.netloc p)
      then Follow absolute_url else Continue
  | _, _ => RaiseError
  end.

Definition link_action (page_url href : string) : LinkAction :=
  if PyStr.startswith href "http" then same_netloc_action href page_url
  else if PyStr.startswith href "/" then
    match Url.urlparse page_url with
    | Some parsed =>
        same_netloc_action
          (Url.scheme parsed +:+ "://" +:+ Url.netloc parsed +:+ href) page_url
    | None => RaiseError
    end
  else Continue.

Section Crawler.
(** [browser.new_page()] followed by [page.goto], the settle delay and
    [page.content()] parsed by BeautifulSoup; [None] when any of these
    raises. *)
Variable goto : string -> option Soup.
Variables max_links max_depth : Z.

(** [re.sub(r'\s+', ' ', text_content).strip()] *)
Definition cleaned_text (soup : Soup) : string :=
  PyStr.strip (PyStr.sub_ws (soup_text soup)).

Definition page_document (page_url : string) (depth : Z) (soup : Soup)
  : Document :=
  let page_title := default page_url (soup_title soup) in
  {| doc_name := page_title;
     doc_content := cleaned_text soup;
     doc_url := page_url;
     doc_meta_data :=
       <["url" := MStr page_url]>
         (<["title" := MStr page_title]> (<["depth" := MInt depth]> ∅)) |}.

(** The extraction step of [scrape_page]: the document appended for a
    rendered page, if any ([len(text_content) > 50]). *)
Definition extract (page_url : string) (depth : Z) (soup : Soup)
  : option Document :=
  if bool_decide (PyStr.len (cleaned_text soup) > 50)%Z
  then Some (page_document page_url depth soup) else None.

(** [visited_urls.add(page_url)], followed by the [page.goto] call. *)
Definition mark_visited (page_url : string) (st : CrawlState) : CrawlState :=
  {| documents := documents st;
     visited_urls := visited_urls st ∪ {[page_url]};
     goto_log := goto_log st ++ [page_url] |}.

(** [documents.append(doc)] *)
Definition emit (doc : Document) (st : CrawlState) : CrawlState :=
  {| documents := documents st ++ [doc];
     visited_urls := visited_urls st;
     goto_log := goto_log st |}.

(** The [for] loop over the links, [recur] being the recursive call
    [scrape_page(absolute_url, depth + 1)].  An exception raised in the
    body leaves the loop; it is caught by the [except] of the enclosing
    [scrape_page], which returns normally. *)
Fixpoint follow_links (recur : string -> CrawlState -> option CrawlState)
    (page_url : string) (links : list string) (st : CrawlState)
  : option CrawlState :=
  match links with
  | [] => Some st
  | href :: links' =>
      match link_action page_url href with
      | Continue => follow_links recur page_url links' st
      | RaiseError => Some st
      | Follow absolute_url =>
          match recur absolute_url st with
          | Some st' => follow_links recur page_url links' st'
          | None => None
          end
      end
  end.

(** [scrape_page]; [None] only when [fuel], which bounds the nesting of
    the calls, is used up. *)
Fixpoint scrape_page (fuel : nat) (page_url : string) (depth : Z)
    (st : CrawlState) : option CrawlState :=
  match fuel with
  | O => None
  | S fuel' =>
      if bool_decide (depth > max_depth)%Z
         || bool_decide (page_url ∈ visited_urls st)
      then Some st
      else
        let st := mark_visited page_url st in
        match goto page_url with
        | None => Some st
        | Some soup =>
            let st :=
              match extract page_url depth soup with
              | Some doc => emit doc st
              | None => st
              end in
            if bool_decide (depth < max_depth)%Z
               && bool_decide
                    (Z.of_nat (length (documents st)) < max_links * 2)%Z
            then
              follow_links (fun u s => scrape_page fuel' u (depth + 1) s)
                page_url (PyStr.slice_to (soup_hrefs soup) max_links) st
            else Some st
        end
  end.

(** The first call and at most [max_depth + 1] nested ones. *)
Definition crawl_fuel : nat := S (Z.to_nat (max_depth + 1)).

Definition crawl (url : string) : option CrawlState :=
  scrape_page crawl_fuel url 0 crawl_init.

End Crawler.

(** The browser behind [sync_playwright()]: whether starting it raises,
    and what its pages render. *)
Record Browser := {
  launch : option string;          (* [Some e]: starting the browser raises [e] *)
  browser_goto : string -> option Soup;
}.

(** [_scrape_with_browser_sync]: [inl] carries the exception raised when
    Playwright or the browser cannot be started, which happens outside
    the [try] of [scrape_page]. *)
Definition _scrape_with_browser_sync (b : Browser) (url : string)
    (max_links max_depth : Z) : option (string + list Document) :=
  match launch b with
  | Some e => Some (inl e)
  | None =>
      st ← crawl (browser_goto b) max_links max_depth url;
      Some (inr (documents st))
  end.

(** ** The vector store as the endpoints see it *)

(** The part of a point's payload that the endpoints read. *)
Record Payload := {
  payload_name : option string;
  payload_content : string;
  payload_url : option string;                       (* [payload.get("url")] *)
  payload_meta_data : option (gmap string MetaVal);  (* [payload.get("meta_data")], when a dict *)
}.

Record Point := {
  point_id : nat;
  point_payload : option Payload;
}.

(** The continuation cursor [next_page_offset] of a scroll. *)
Abbreviation Cursor := nat (only parsing).

(** The operations the endpoints call on the store, over a store state
    [St]; [inl e] is the exception [e] raised by the call.
    [add_content] is [agent.knowledge.add_content_async]. *)
Record StoreClient (St : Type) := {
  scroll : St -> Z -> option Cursor -> bool -> string + (list Point * option Cursor);
  delete : St -> list nat -> string + St;
  add_content : St -> string -> string -> option (gmap string MetaVal) -> string + St;
}.
Arguments scroll {St} _ _ _ _ _.
Arguments delete {St} _ _ _.
Arguments add_content {St} _ _ _ _ _.

(** [payload.get("url") or (payload.get("meta_data", {}).get("url") if
    isinstance(payload.get("meta_data"), dict) else None)], with
    [payload = point.payload or {}]. *)
Definition point_url (point : Point) : option MetaVal :=
  match point_payload point with
  | None => None
  | Some payload =>
      let from_meta := md ← payload_meta_data payload; md !! "url" in
      match payload_url payload with
      | Some EmptyString | None => from_meta
      | Some u => Some (MStr u)
      end
  end.

Definition url_matches (url : string) (point : Point) : bool :=
  bool_decide (point_url point = Some (MStr url)).

(** ** Process-wide state *)

Record Globals := {
  agent : bool;                 (* [agent is not None] *)
  knowledge_loaded : bool;
  loaded_urls : list string;
}.

(** The result of an endpoint: its response, or the [HTTPException] it
    raises. *)
Inductive Http (A : Type) :=
  | Response (a : A)
  | HTTPException (status_code : Z) (detail : string).
Arguments Response {A} a.
Arguments HTTPException {A} status_code detail.

(** ** [initialize_knowledge] *)

(** A [Document] object returned by [website_reader.async_read]. *)
Record ReaderDoc := {
  rd_name : option string;
  rd_content : string;
  rd_meta_data : gmap string MetaVal;
}.

(** The two extractors, as the endpoint reaches them. *)
Record Web := {
  web_browser : Browser;
  async_read : string -> string + list ReaderDoc;
}.

Inductive Extractor := BrowserScraper | RegularReader.

(** The dictionaries the endpoint keeps in its own [documents] list; a
    reader document may have no name. *)
Record IngestDoc := {
  in_name : option string;
  in_content : string;
  in_url : string;
  in_meta_data : gmap string MetaVal;
}.

Definition of_browser_doc (d : Document) : IngestDoc :=
  {| in_name := Some (doc_name d); in_content := doc_content d;
     in_url := doc_url d; in_meta_data := doc_meta_data d |}.

Definition of_reader_doc (url : string) (d : ReaderDoc) : IngestDoc :=
  {| in_name := rd_name d; in_content := rd_content d;
     in_url := url; in_meta_data := rd_meta_data d |}.

(** The interpolated fields of the success message
    [f"Knowledge base loaded successfully from {url}. {len(documents)}
    document(s) indexed using {...} scraper.{warning_message}"]. *)
Record LoadedMessage := {
  msg_url : string;
  msg_document_count : nat;
  msg_scraper : string;
  msg_warning : string;
}.

Record InitializeResponse := {
  init_success : bool;
  init_message : LoadedMessage;
  init_loaded_urls : list string;
}.

Definition js_indicators : list string :=
  ["enable javascript"; "you need to enable javascript"; "javascript is disabled"].

Definition js_warning : string :=
  " Warning: This appears to be a JavaScript-rendered website. Browser-based scraping is recommended for better results.".

Definition warning_for (documents : list IngestDoc) : string :=
  if existsb (fun doc =>
       existsb (fun indicator =>
         PyStr.contains indicator (PyStr.lower (in_content doc))) js_indicators)
     documents
  then js_warning else EmptyString.

Definition no_content_detail : string :=
  "No content could be extracted from the URL. The site may require authentication or be inaccessible.".

Definition valid_scheme (url : string) : bool :=
  PyStr.startswith url "http://" || PyStr.startswith url "https://".

(** [x or url] for an optional string [x] *)
Definition or_url (x : option string) (url : string) : string :=
  match x with
  | Some EmptyString | None => url
  | Some n => n
  end.

Section Endpoints.
Context {St : Type}.
Variable client : StoreClient St.
Variable web : Web.

(** The [for doc in documents] loop that writes to the knowledge base;
    [Some e] when [add_content_async] raises [e], with the store as the
    earlier iterations left it. *)
Fixpoint add_documents (url : string) (use_browser : bool)
    (documents : list IngestDoc) (s : St) : St * option string :=
  match documents with
  | [] => (s, None)
  | doc :: documents' =>
      let doc_metadata :=
        <["scraped_with" := MStr (if use_browser then "browser" else "regular")]>
          (<["url" := MStr (in_url doc)]> (in_meta_data doc)) in
      match add_content client s (or_url (in_name doc) url) (in_content doc)
              (Some doc_metadata) with
      | inl e => (s, Some e)
      | inr s' => add_documents url use_browser documents' s'
      end
  end.

(** The endpoint returns its result, the globals and the store after the
    call, and the extractors it called, in order.  [None] only if the
    crawl ran out of fuel. *)
Definition initialize_knowledge (request_url : string) (g : Globals) (s : St)
  : option (Http InitializeResponse * Globals * St * list Extractor) :=
  if negb (agent g) then
    Some (HTTPException 503 "Agent not initialized", g, s, [])
  else if bool_decide (PyStr.strip request_url = EmptyString) then
    Some (HTTPException 400 "URL cannot be empty", g, s, [])
  else
    let url := PyStr.strip request_url in
    if negb (valid_scheme url) then
      Some (HTTPException 400 "URL must start with http:// or https://", g, s, [])
    else
      scraped ← _scrape_with_browser_sync (web_browser web) url 2 3;
      let browser_docs :=
        match scraped with inl _ => [] | inr docs => docs end in
      let use_browser := negb (bool_decide (browser_docs = [])) in
      let '(documents, called) :=
        if use_browser then (of_browser_doc <$> browser_docs, [BrowserScraper])
        else
          (match async_read web url with
           | inl _ => []
           | inr regular_docs => of_reader_doc url <$> regular_docs
           end, [BrowserScraper; RegularReader]) in
      match documents with
      | [] => Some (HTTPException 400 no_content_detail, g, s, called)
      | _ :: _ =>
          let warning_message :=
            if use_browser then EmptyString else warning_for documents in
          match add_documents url use_browser documents s with
          | (s', Some e) =>
              Some (HTTPException 500 ("Error loading knowledge base: " +:+ e),
                    g, s', called)
          | (s', None) =>
              let loaded_urls' :=
                if bool_decide (url ∈ loaded_urls g) then loaded_urls g
                else loaded_urls g ++ [url] in
              let g' := {| agent := agent g; knowledge_loaded := true;
                           loaded_urls := loaded_urls' |} in
              Some (Response
                      {| init_success := true;
                         init_message :=
                           {| msg_url := url;
                              msg_document_count := length documents;
                              msg_scraper :=
                                if use_browser then "browser" else "regular";
                              msg_warning := warning_message |};
                         init_loaded_urls := loaded_urls' |},
                    g', s', called)
          end
      end.

(** [get_loaded_urls] *)
Definition get_loaded_urls (g : Globals) : list string * nat :=
  (loaded_urls g, length (loaded_urls g)).

(** ** [remove_url] *)

(** The interpolated fields of [f"Removed {deleted_count} document(s) from
    {url}"]. *)
Record RemovedMessage := {
  rm_deleted_count : nat;
  rm_url : string;
}.

Record RemoveUrlResponse := {
  rm_success : bool;
  rm_message : RemovedMessage;
  rm_remaining_urls : list string;
}.

(** What the [while True] loop of an endpoint leaves behind: the store,
    the points the loop body has examined so far (in order), and either
    the exception that ended the loop or the loop's result. *)
Record ScanEnd (A : Type) := {
  scan_store : St;
  scan_seen : list Point;
  scan_result : string + A;
}.
Arguments scan_store {A} _.
Arguments scan_seen {A} _.
Arguments scan_result {A} _.

(** The scan of [remove_url], entered with the current [offset] and
    [deleted_count].  [None] when the loop is still running after [fuel]
    iterations. *)
Fixpoint remove_scan (fuel : nat) (url : string) (s : St)
    (offset : option Cursor) (deleted_count : nat) (seen : list Point)
  : option (ScanEnd nat) :=
  match fuel with
  | O => None
  | S fuel' =>
      match scroll client s 100 offset true with
      | inl e =>
          Some {| scan_store := s; scan_seen := seen; scan_result := inl e |}
      | inr ([], _) =>
          Some {| scan_store := s; scan_seen := seen;
                  scan_result := inr deleted_count |}
      | inr (points, next_page_offset) =>
          let point_ids_to_delete :=
            point_id <$> filter (fun point => url_matches url point) points in
          let seen := seen ++ points in
          let deleted :=
            match point_ids_to_delete with
            | [] => inr (s, deleted_count)
            | _ :: _ =>
                match delete client s point_ids_to_delete with
                | inl e => inl e
                | inr s' =>
                    inr (s', (deleted_count + length point_ids_to_delete)%nat)
                end
            end in
          match deleted with
          | inl e =>
              Some {| scan_store := s; scan_seen := seen; scan_result := inl e |}
          | inr (s', deleted_count') =>
              match next_page_offset with
              | None =>
                  Some {| scan_store := s'; scan_seen := seen;
                          scan_result := inr deleted_count' |}
              | Some offset' =>
                  remove_scan fuel' url s' (Some offset') deleted_count' seen
              end
          end
      end
  end.

(** [loaded_urls.remove(url)]: drops the first occurrence. *)
Fixpoint list_remove_first (url : string) (l : list string) : list string :=
  match l with
  | [] => []
  | x :: l' => if bool_decide (x = url) then l' else x :: list_remove_first url l'
  end.

Definition remove_url (fuel : nat) (request_url : string) (g : Globals) (s : St)
  : option (Http RemoveUrlResponse * Globals * St) :=
  if bool_decide (PyStr.strip request_url = EmptyString) then
    Some (HTTPException 400 "URL cannot be empty", g, s)
  else
    let url := PyStr.strip request_url in
    if negb (bool_decide (url ∈ loaded_urls g)) then
      Some (HTTPException 404 ("URL " +:+ url +:+ " not found in loaded URLs"),
            g, s)
    else
      fin ← remove_scan fuel url s None 0 [];
      match scan_result fin with
      | inl e =>
          Some (HTTPException 500 ("Error removing URL: " +:+ e),
                g, scan_store fin)
      | inr deleted_count =>
          let loaded_urls' := list_remove_first url (loaded_urls g) in
          let g' := {| agent := agent g;
                       knowledge_loaded :=
                         if bool_decide (length loaded_urls' = 0%nat)
                         then false else knowledge_loaded g;
                       loaded_urls := loaded_urls' |} in
          Some (Response
                  {| rm_success := true;
                     rm_message := {| rm_deleted_count := deleted_count;
                                      rm_url := url |};
                     rm_remaining_urls := loaded_urls' |},
                g', scan_store fin)
      end.

(** ** [clear_knowledge_base] *)

(** The scan of [clear_knowledge_base], which only collects ids. *)
Fixpoint clear_scan (fuel : nat) (s : St) (offset : option Cursor)
    (all_point_ids : list nat) (seen : list Point)
  : option (ScanEnd (list nat)) :=
  match fuel with
  | O => None
  | S fuel' =>
      match scroll client s 100 offset false with
      | inl e =>
          Some {| scan_store := s; scan_seen := seen; scan_result := inl e |}
      | inr ([], _) =>
          Some {| scan_store := s; scan_seen := seen;
                  scan_result := inr all_point_ids |}
      | inr (points, next_page_offset) =>
          let all_point_ids := all_point_ids ++ (point_id <$> points) in
          let seen := seen ++ points in
          match next_page_offset with
          | None =>
              Some {| scan_store := s; scan_seen := seen;
                      scan_result := inr all_point_ids |}
          | Some offset' => clear_scan fuel' s (Some offset') all_point_ids seen
          end
      end
  end.

(** The response dictionary: [success] and the count interpolated into
    [f"Knowledge base cleared successfully. Removed {len(all_point_ids)}
    document(s)."]. *)
Record ClearResponse := {
  clr_success : bool;
  clr_removed : nat;
}.

(** Besides the result and the state after the call, the endpoint
    returns the id lists it passed to [client.delete], in order. *)
Definition clear_knowledge_base (fuel : nat) (g : Globals) (s : St)
  : option (Http ClearResponse * Globals * St * list (list nat)) :=
  fin ← clear_scan fuel s None [] [];
  let failed e :=
    HTTPException 500 ("Error clearing knowledge base: " +:+ e) in
  match scan_result fin with
  | inl e => Some (failed e, g, s, [])
  | inr all_point_ids =>
      let deleted :=
        match all_point_ids with
        | [] => inr (s, [])
        | _ :: _ =>
            match delete client s all_point_ids with
            | inl e => inl e
            | inr s' => inr (s', [all_point_ids])
            end
        end in
      match deleted with
      | inl e => Some (failed e, g, s, [all_point_ids])
      | inr (s', deletes) =>
          Some (Response {| clr_success := true;
                            clr_removed := length all_point_ids |},
                {| agent := agent g; knowledge_loaded := false;
                   loaded_urls := [] |},
                s', deletes)
      end
  end.

End Endpoints.

Arguments Build_ScanEnd {St A} _ _ _.
Arguments scan_store {St A} _.
Arguments scan_seen {St A} _.
Arguments scan_result {St A} _.

(** ** A reference store

    The store is an external service.  This is the behaviour of the
    Qdrant collection behind [QdrantClient] and [agent.knowledge] that the
    endpoints rely on.  The state is [None] until the collection is
    created by the first write.  Points are kept in increasing order of
    id; a scroll returns the points from the [offset] id on, at most
    [limit] of them, and the id of the next point as continuation cursor.
    Every call on a collection that does not exist raises, which is what
    the [try] around [client.get_collection] in [get_knowledge_base]
    guards against. *)

Module Qdrant.

Definition State := option (list Point).

Definition not_found : string :=
  "Not found: Collection `website-content` doesn't exist!".

Definition without_payload (p : Point) : Point :=
  {| point_id := point_id p; point_payload := None |}.

Definition scroll (s : State) (limit : Z) (offset : option Cursor)
    (with_payload : bool) : string + (list Point * option Cursor) :=
  match s with
  | None => inl not_found
  | Some points =>
      let from_offset :=
        filter (fun p => default 0 offset ≤ point_id p) points in
      let page := take (Z.to_nat limit) from_offset in
      inr (if with_payload then page else without_payload <$> page,
           point_id <$> from_offset !! Z.to_nat limit)
  end.

Definition delete (s : State) (ids : list nat) : string + State :=
  match s with
  | None => inl not_found
  | Some points => inr (Some (filter (fun p => point_id p ∉ ids) points))
  end.

Definition fresh_id (points : list Point) : nat :=
  match points with
  | [] => 0
  | _ :: _ => S (max_list (point_id <$> points))
  end.

(** [agent.knowledge.add_content_async] cuts a text into chunks and
    stores one point per chunk; every point carries the name of the
    document, and its metadata dictionary under [meta_data].  A text of 1
    to [chunk_size] characters is one chunk.  What the library makes of
    any other text, an empty one or one it cuts in several chunks, is
    decided by its chunking strategy, which is not part of the program:
    [split] stands for it. *)
Definition chunk_size : Z := 5000.

Definition chunks_of (split : string -> list string) (text_content : string)
  : list string :=
  if bool_decide (0 < PyStr.len text_content <= chunk_size)%Z
  then [text_content]
  else split text_content.

Definition chunk_point (name : string)
    (metadata : option (gmap string MetaVal)) (id : nat) (chunk : string)
  : Point :=
  {| point_id := id;
     point_payload :=
       Some {| payload_name := Some name;
               payload_content := chunk;
               payload_url := None;
               payload_meta_data := metadata |} |}.

Definition add_content (split : string -> list string) (s : State)
    (name text_content : string) (metadata : option (gmap string MetaVal))
  : string + State :=
  let points := default [] s in
  inr (Some (points ++
    imap (fun i chunk => chunk_point name metadata (fresh_id points + i) chunk)
      (chunks_of split text_content))).

Definition client (split : string -> list string) : StoreClient State :=
  Build_StoreClient State scroll delete (add_content split).

End Qdrant.

(** ** Store stubs *)

Module Stub.

(** A store that hands out the fixed [pages] one per scroll: the cursor
    of a page is the index of the next one, and the last page has none.
    Its state is the list of id lists it was asked to delete. *)
Definition paged_scroll (pages : list (list Point)) (s : list (list nat))
    (limit : Z) (offset : option Cursor) (with_payload : bool)
  : string + (list Point * option Cursor) :=
  let k := default 0 offset in
  inr (default [] (pages !! k),
       if bool_decide (S k < length pages) then Some (S k) else None).

Definition paged (pages : list (list Point)) : StoreClient (list (list nat)) :=
  Build_StoreClient (list (list nat))
    (paged_scroll pages)
    (fun s ids => inr (s ++ [ids]))
    (fun s _ _ _ => inr s).

(** A store whose cursor does not advance: every scroll returns the same
    non-empty page and the same cursor. *)
Definition stuck_point : Point := {| point_id := 7; point_payload := None |}.

Definition stuck : StoreClient unit :=
  Build_StoreClient unit
    (fun _ _ _ _ => inr ([stuck_point], Some 7))
    (fun s _ => inr s)
    (fun s _ _ _ => inr s).


End Stub.

(** ** Scenarios *)

Module Scenario.

Definition long_text : string :=
  "Hello World, this is a substantial paragraph of content exceeding the minimum threshold length for extraction.".

Definition about_text : string :=
  "About us: a second page of the same site, again with more than fifty characters of text.".

(** Exactly fifty characters once cleaned. *)
Definition fifty_text : string :=
  "  12345678901234567890   12345678901234567890123456789 ".

Definition seed : string := "https://example.com/".

(** A chunking strategy: the first [Qdrant.chunk_size] characters of a
    text, then the rest of it. *)
Definition split (text_content : string) : list string :=
  let size := Z.to_nat Qdrant.chunk_size in
  [String.substring 0 size text_content;
   String.substring size (String.length text_content - size) text_content].

Definition seed_soup : Soup :=
  {| soup_text := long_text; soup_title := Some "Home";
     soup_hrefs := ["/about"; "/contact"] |}.

Definition about_soup : Soup :=
  {| soup_text := about_text; soup_title := None; soup_hrefs := ["/"] |}.

(** A site of two pages that link to each other. *)
Definition site (url : string) : option Soup :=
  if String.eqb url seed then Some seed_soup
  else if String.eqb url "https://example.com/about" then Some about_soup
  else None.

Definition web : Web :=
  {| web_browser := {| launch := None; browser_goto := site |};
     async_read := fun _ => inr [] |}.

(** No browser and nothing from the reader. *)
Definition dead_web : Web :=
  {| web_browser := {| launch := Some "Executable doesn't exist";
                       browser_goto := fun _ => None |};
     async_read := fun _ => inl "Connection error" |}.

Definition fresh : Globals :=
  {| agent := true; knowledge_loaded := false; loaded_urls := [] |}.

Definition loaded : Globals :=
  {| agent := true; knowledge_loaded := true; loaded_urls := [seed] |}.

Definition rec (i : nat) (u : string) : Point :=
  {| point_id := i;
     point_payload :=
       Some {| payload_name := None; payload_content := "text";
               payload_url := Some u; payload_meta_data := None |} |}.

Definition three_pages : list (list Point) :=
  [[rec 1 seed; rec 2 "https://other.org/"];
   [rec 3 seed];
   [rec 4 "https://other.org/x"; rec 5 seed]].


End Scenario.

(** ** Vocabulary of the statements *)



(** The [depth] recorded in a document's metadata. *)
Definition crawl_depth (doc : Document) : option MetaVal :=
  doc_meta_data doc !! "depth".


Definition fifty_soup : Soup :=
  {| soup_text := Scenario.fifty_text; soup_title := None; soup_hrefs := [] |}.

(** The crawler yields no document: it raised, or returned an empty
    list. *)
Definition crawler_yields_nothing (web : Web) (url : string) : Prop :=
  exists r, _scrape_with_browser_sync (web_browser web) url 2 3 = Some r
    /\ match r with inl _ => True | inr docs => docs = [] end.

(** The fallback reader yields no document: it raised, or returned an
    empty list. *)
Definition reader_yields_nothing (web : Web) (url : string) : Prop :=
  match async_read web url with inl _ => True | inr docs => docs = [] end.

(** No browser; the reader returns two documents for the seed. *)
Definition reader_web : Web :=
  {| web_browser := {| launch := Some "Executable doesn't exist";
                       browser_goto := fun _ => None |};
     async_read := fun _ =>
       inr [ {| rd_name := Some "Home"; rd_content := Scenario.long_text;
                rd_meta_data := ∅ |};
             {| rd_name := None; rd_content := Scenario.about_text;
                rd_meta_data := {["chunk" := MInt 2]} |} ] |}.

(** Ingestion of [url] followed by its removal: the document count of the
    first response, the deleted count of the second, the registry and the
    store at the end.  [None] unless both calls succeed. *)
Definition round_trip {St} (client : StoreClient St) (web : Web) (fuel : nat)
    (url : string) (g : Globals) (s : St)
  : option (nat * nat * list string * St) :=
  '(res1, g1, s1, _) ← initialize_knowledge client web url g s;
  match res1 with
  | HTTPException _ _ => None
  | Response r1 =>
      '(res2, g2, s2) ← remove_url client fuel url g1 s1;
      match res2 with
      | HTTPException _ _ => None
      | Response r2 =>
          Some (msg_document_count (init_message r1),
                rm_deleted_count (rm_message r2),
                fst (get_loaded_urls g2), s2)
      end
  end.

(** The URLs under which the points left in the reference store can be
    found by [remove_url]. *)
Definition stored_urls (s : Qdrant.State) : list (option MetaVal) :=
  point_url <$> default [] s.

(** The reference store keeps its points in strictly increasing order
    of id. *)
Definition id_sorted (points : list Point) : Prop :=
  StronglySorted (fun p q => point_id p < point_id q) points.

(** ** The remaining endpoints *)

(** The module-level globals when the module is loaded. *)
Definition globals_init : Globals :=
  {| agent := false; knowledge_loaded := false; loaded_urls := [] |}.

(** [startup_event]: the agent is created; the registry is not touched. *)
Definition startup_event (g : Globals) : Globals :=
  {| agent := true; knowledge_loaded := knowledge_loaded g;
     loaded_urls := loaded_urls g |}.

Record HealthResponse := {
  health_status : string;
  health_message : string;
  health_knowledge_loaded : bool;
}.

(** [health_check] *)
Definition health_check (g : Globals) : HealthResponse :=
  {| health_status := "healthy";
     health_message := "Agno Chatbot API is running";
     health_knowledge_loaded := knowledge_loaded g |}.

(** *** [chat] *)

Record Message := {
  msg_role : string;       (* ['user'] or ['assistant'] *)
  msg_content : string;
}.

(** What [agent.arun] returns: an object with a [content] attribute
    (which is a string or not), a plain string, or anything else, of which
    the endpoint takes [str(response)]. *)
Inductive AgentReply :=
  | WithContent (content : option string)
  | PlainStr (s : string)
  | OtherReply (str_repr : string).

(** The agent: [inl e] when [arun] raises [e].  [validation_error] is the
    text of the error [ChatResponse] raises on a [response] that is not a
    string. *)
Record Agent := {
  arun : string -> string + AgentReply;
  validation_error : string;
}.

Record ChatResponse := {
  chat_response : string;
  chat_success : bool;
}.

Definition newline : string := String "010"%char EmptyString.

Definition role_label (msg : Message) : string :=
  if String.eqb (msg_role msg) "user" then "User" else "Assistant".

(** The list [context_parts] before the current message is added. *)
Definition context_parts (history : list Message) : list string :=
  match history with
  | [] => []
  | _ :: _ =>
      ["Previous conversation:"]
      ++ ((fun msg => role_label msg +:+ ": " +:+ msg_content msg) <$> history)
      ++ [EmptyString; "Current question:"]
  end.

(** ["\n".join(context_parts) + request.message if context_parts else
    request.message] *)
Definition full_message (history : list Message) (message : string) : string :=
  match context_parts history with
  | [] => message
  | parts => String.concat newline parts +:+ message
  end.

(** The endpoint returns its result and the prompts it passed to
    [agent.arun], in order. *)
Definition chat (ag : Agent) (message : string) (history : list Message)
    (g : Globals) : Http ChatResponse * list string :=
  if negb (agent g) then
    (HTTPException 503 "Agent not initialized", [])
  else if bool_decide (PyStr.strip message = EmptyString) then
    (HTTPException 400 "Message cannot be empty", [])
  else
    let prompt := full_message history message in
    let failed e := HTTPException 500 ("Error processing request: " +:+ e) in
    (match arun ag prompt with
     | inl e => failed e
     | inr (WithContent (Some content)) =>
         Response {| chat_response := content; chat_success := true |}
     | inr (WithContent None) => failed (validation_error ag)
     | inr (PlainStr response) =>
         Response {| chat_response := response; chat_success := true |}
     | inr (OtherReply str_repr) =>
         Response {| chat_response := str_repr; chat_success := true |}
     end, [prompt]).

(** *** [get_knowledge_base] *)

(** [metadata]: what the payload holds under [meta_data] when it has that
    key, a dictionary or [None]; the payload itself otherwise. *)
Inductive ChunkMetadata :=
  | MetaDataDict (meta_data : gmap string MetaVal)
  | WholePayload (payload : option Payload)
  | NoMetadata.

Record KnowledgeChunk := {
  chunk_id : string;
  chunk_name : option string;
  chunk_content : string;
  chunk_url : option string;
  chunk_metadata : ChunkMetadata;
}.

Record KnowledgeBaseResponse := {
  total_chunks : nat;
  chunks : list KnowledgeChunk;
}.

(** What a payload holds under [meta_data] when that is not a dictionary,
    the case in which [payload_meta_data] is [None]: no such key, the
    value [None], or a value of another type, on which the validation of
    [metadata: Optional[dict]] raises [error]. *)
Inductive OtherMetaData :=
  | MetaDataAbsent
  | MetaDataNull
  | MetaDataInvalid (error : string).

Definition not_loaded_detail : string :=
  "Knowledge base not loaded. Please initialize with a URL first.".

Section Browse.
Context {St : Type}.
Variable client : StoreClient St.
(** [client.get_collection(COLLECTION_NAME).points_count]; [inl e] when
    the call raises [e]. *)
Variable get_collection : St -> string + nat.
Variable other_meta_data : Payload -> OtherMetaData.

(** [KnowledgeChunk(...)] on one scrolled point; [inl e] when it raises
    [e].  [point.payload or {}] is the empty dictionary for a point
    without payload.  The payloads modelled here carry the text under
    [content] and have no [text_content] key. *)
Definition to_chunk (point : Point) : string + KnowledgeChunk :=
  match point_payload point with
  | None =>
      inr {| chunk_id := pretty (point_id point); chunk_name := None;
             chunk_content := EmptyString; chunk_url := None;
             chunk_metadata := WholePayload None |}
  | Some payload =>
      let chunk metadata :=
        {| chunk_id := pretty (point_id point);
           chunk_name := payload_name payload;
           chunk_content := payload_content payload;
           chunk_url := payload_url payload;
           chunk_metadata := metadata |} in
      match payload_meta_data payload with
      | Some meta_data => inr (chunk (MetaDataDict meta_data))
      | None =>
          match other_meta_data payload with
          | MetaDataAbsent => inr (chunk (WholePayload (Some payload)))
          | MetaDataNull => inr (chunk NoMetadata)
          | MetaDataInvalid error => inl error
          end
      end
  end.

(** The loop over the scrolled points: it ends at the first point whose
    chunk cannot be built. *)
Fixpoint build_chunks (points : list Point) : string + list KnowledgeChunk :=
  match points with
  | [] => inr []
  | point :: rest =>
      match to_chunk point with
      | inl e => inl e
      | inr chunk =>
          match build_chunks rest with
          | inl e => inl e
          | inr chunks => inr (chunk :: chunks)
          end
      end
  end.

Definition get_knowledge_base (limit : Z) (offset : nat) (g : Globals) (s : St)
  : Http KnowledgeBaseResponse :=
  if negb (knowledge_loaded g) then HTTPException 400 not_loaded_detail
  else
    let failed e :=
      HTTPException 500 ("Error retrieving knowledge base: " +:+ e) in
    match get_collection s with
    | inl _ => Response {| total_chunks := 0; chunks := [] |}
    | inr total_points =>
        match scroll client s limit (Some offset) true with
        | inl e => failed e
        | inr (points, _) =>
            match build_chunks points with
            | inl e => failed e
            | inr chunks =>
                Response {| total_chunks := total_points; chunks := chunks |}
            end
        end
    end.

End Browse.

(** [get_collection] on the reference store. *)
Definition qdrant_get_collection (s : Qdrant.State) : string + nat :=
  match s with
  | None => inl Qdrant.not_found
  | Some points => inr (length points)
  end.

(** ** Vocabulary of the further statements *)

(** The number of pages a crawl can fetch with [m] links per page and
    [k] levels below the seed. *)
Fixpoint fetch_bound (m k : nat) : nat :=
  match k with
  | O => 1
  | S k' => 1 + m * fetch_bound m k'
  end.

(** The registry holds no URL twice, and the flag says whether it holds
    any. *)
Definition registry_ok (g : Globals) : Prop :=
  NoDup (loaded_urls g)
  /\ (knowledge_loaded g = true <-> loaded_urls g <> []).

(** The character at position [i] of [s] is whitespace. *)
Definition space_at (s : string) (i : nat) : Prop :=
  exists c, String.get i s = Some c /\ PyStr.isspace c = true.

(** The character at position [i] of [s] exists and is not whitespace. *)
Definition ink_at (s : string) (i : nat) : Prop :=
  exists c, String.get i s = Some c /\ PyStr.isspace c = false.

(** What the fetch of one page that was not visited before does to the
    shared state of a crawl: the page is recorded and fetched, and its
    document, if it has one, is appended. *)
Inductive crawl_step (goto : string -> option Soup)
  : CrawlState -> CrawlState -> Prop :=
  | step_failed page_url st :
      page_url ∉ visited_urls st -> goto page_url = None ->
      crawl_step goto st (mark_visited page_url st)
  | step_empty page_url depth soup st :
      page_url ∉ visited_urls st -> goto page_url = Some soup ->
      extract page_url depth soup = None ->
      crawl_step goto st (mark_visited page_url st)
  | step_document page_url depth soup doc st :
      page_url ∉ visited_urls st -> goto page_url = Some soup ->
      extract page_url depth soup = Some doc ->
      crawl_step goto st (emit doc (mark_visited page_url st)).

(** The documents [initialize_knowledge] settles on for a URL, and
    whether they come from the browser: those of the crawler if it
    returned any, those of the reader otherwise. *)
Definition selected_documents (web : Web) (url : string)
  : option (list IngestDoc * bool) :=
  scraped ← _scrape_with_browser_sync (web_browser web) url 2 3;
  match scraped with
  | inr (doc :: docs) => Some (of_browser_doc <$> doc :: docs, true)
  | _ =>
      Some (match async_read web url with
            | inl _ => []
            | inr regular_docs => of_reader_doc url <$> regular_docs
            end, false)
  end.

(** The points of [points] that [remove_url] finds under [url], and
    the others. *)
Definition points_under (url : string) (points : list Point) : list Point :=
  filter (fun point => Is_true (url_matches url point)) points.

Definition points_not_under (url : string) (points : list Point) : list Point :=
  filter (fun point => ~ Is_true (url_matches url point)) points.

(** A store that accepts one write and refuses the next ones; its state
    is the number of writes it accepted. *)
Definition one_write_store : StoreClient nat :=
  Build_StoreClient nat
    (fun _ _ _ _ => inr ([], None))
    (fun s _ => inr s)
    (fun s _ _ _ => if bool_decide (s < 1) then inr (S s) else inl "disk full").

(** The metadata [initialize_knowledge] passes with a document. *)
Definition ingest_metadata (use_browser : bool) (doc : IngestDoc)
  : gmap string MetaVal :=
  <["scraped_with" := MStr (if use_browser then "browser" else "regular")]>
    (<["url" := MStr (in_url doc)]> (in_meta_data doc)).

(** The id lists [remove_url] passes to [delete] when the store returns
    [pages]: for each page that holds points under [url], their ids. *)
Definition page_deletes (url : string) (pages : list (list Point))
  : list (list nat) :=
  filter (fun ids => ids <> [])
    ((fun page => point_id <$> points_under url page) <$> pages).

(** An agent that answers with the prompt it was given. *)
Definition echo_agent : Agent :=
  {| arun := fun prompt => inr (PlainStr prompt);
     validation_error := "Input should be a valid string" |}.

(** Every registered URL is stripped and starts with [http://] or
    [https://]. *)
Definition registry_urls_valid (g : Globals) : Prop :=
  Forall (fun url => PyStr.strip url = url /\ valid_scheme url = true)
    (loaded_urls g).

(** A store that keeps the texts written to it. *)
Definition recording_store : StoreClient (list string) :=
  Build_StoreClient (list string)
    (fun _ _ _ _ => inr ([], None))
    (fun s _ => inr s)
    (fun s _ text_content _ => inr (s ++ [text_content])).

(** A site whose only page renders to ten characters, and for which the
    regular reader returns that same short text. *)
Definition short_web : Web :=
  {| web_browser :=
       {| launch := None;
          browser_goto := fun _ =>
            Some {| soup_text := "Loading..."; soup_title := None;
                    soup_hrefs := [] |} |};
     async_read := fun _ =>
       inr [ {| rd_name := None; rd_content := "Loading...";
                rd_meta_data := ∅ |} ] |}.

(** The document has a text the store keeps whole, as one point. *)
Definition stored_whole (doc : IngestDoc) : Prop :=
  (0 < PyStr.len (in_content doc) <= Qdrant.chunk_size)%Z.

(** A point whose payload holds a list under [meta_data]. *)
Definition list_meta_point : Point :=
  {| point_id := 7;
     point_payload :=
       Some {| payload_name := Some "foreign"; payload_content := "text";
               payload_url := None; payload_meta_data := None |} |}.

Definition list_meta_error : string :=
  "1 validation error for KnowledgeChunk".

Definition list_meta_data (payload : Payload) : OtherMetaData :=
  if bool_decide (payload_name payload = Some "foreign")
  then MetaDataInvalid list_meta_error
  else MetaDataAbsent.

(** * Properties *)

(** ** The crawler: termination and invariants *)

Section CrawlerFacts.
Variable goto : string -> option Soup.
Variables max_links max_depth : Z.

Local Abbreviation scrape := (scrape_page goto max_links max_depth).

Lemma follow_links_total recur page_url links st :
  (forall u s, is_Some (recur u s)) ->
  is_Some (follow_links recur page_url links st).
Proof.
  intros Hrec. revert st.
  induction links as [|href links IH]; intros st; simpl; [by eexists|].
  destruct (link_action page_url href) as [|u|]; [apply IH| |by eexists].
  destruct (Hrec u st) as [st' ->]. apply IH.
Qed.

(** A call at [depth] nests at most [max_depth + 1 - depth] calls. *)
Lemma scrape_page_total fuel page_url depth st :
  (Z.to_nat (max_depth + 1 - depth) < fuel)%nat ->
  is_Some (scrape fuel page_url depth st).
Proof.
  revert page_url depth st.
  induction fuel as [|fuel IH]; intros page_url depth st Hfuel; [lia|].
  simpl. case_bool_decide as Hd; simpl; [by eexists|].
  destruct (bool_decide (page_url ∈ visited_urls st)); [by eexists|].
  destruct (goto page_url) as [soup|]; [|by eexists].
  case_bool_decide as Hlt; simpl; [|by eexists].
  destruct (bool_decide _); [|by eexists].
  apply follow_links_total. intros u s. apply IH. lia.
Qed.

Lemma crawl_total url : is_Some (crawl goto max_links max_depth url).
Proof. apply scrape_page_total. unfold crawl_fuel. lia. Qed.

(** An invariant [P] of the shared state is kept by a call of
    [scrape_page] whose arguments satisfy [Q], provided the two updates
    of the state keep [P] and every followed link satisfies [Q] one level
    down. *)
Section Invariant.
Variable Q : string -> Z -> Prop.
Variable P : CrawlState -> Prop.
Hypothesis keep_visit : forall u d st,
  Q u d -> (d <= max_depth)%Z -> u ∉ visited_urls st -> P st ->
  P (mark_visited u st).
Hypothesis keep_emit : forall u d soup doc st,
  Q u d -> (d <= max_depth)%Z -> goto u = Some soup ->
  extract u d soup = Some doc -> u ∈ visited_urls st -> P st ->
  P (emit doc st).
Hypothesis keep_link : forall u d href v,
  Q u d -> (d < max_depth)%Z -> link_action u href = Follow v -> Q v (d + 1)%Z.

Lemma follow_links_invariant recur page_url depth links st st' :
  (forall v s s', Q v (depth + 1)%Z -> P s -> recur v s = Some s' -> P s') ->
  Q page_url depth -> (depth < max_depth)%Z -> P st ->
  follow_links recur page_url links st = Some st' -> P st'.
Proof.
  intros Hrec HQ Hlt. revert st.
  induction links as [|href links IH]; intros st HP; simpl.
  - by intros [= <-].
  - destruct (link_action page_url href) as [|v|] eqn:Hact.
    + by apply IH.
    + destruct (recur v st) as [s1|] eqn:Hr; [|done].
      apply IH. eapply Hrec; [|exact HP|exact Hr]. by eapply keep_link.
    + by intros [= <-].
Qed.

Lemma scrape_page_invariant fuel page_url depth st st' :
  Q page_url depth -> P st ->
  scrape fuel page_url depth st = Some st' -> P st'.
Proof.
  revert page_url depth st st'.
  induction fuel as [|fuel IH]; intros page_url depth st st' HQ HP; [done|].
  simpl. case_bool_decide as Hd; simpl; [by intros [= <-]|].
  case_bool_decide as Hv; [by intros [= <-]|].
  assert (Hle : (depth <= max_depth)%Z) by lia.
  assert (HP1 : P (mark_visited page_url st)) by by eapply keep_visit.
  assert (Hin : page_url ∈ visited_urls (mark_visited page_url st))
    by (simpl; set_solver).
  destruct (goto page_url) as [soup|] eqn:Hgoto; [|by intros [= <-]].
  set (st1 := match extract page_url depth soup with
              | Some doc => emit doc (mark_visited page_url st)
              | None => mark_visited page_url st
              end).
  assert (HP2 : P st1).
  { subst st1. destruct (extract page_url depth soup) eqn:He; [|done].
    by eapply keep_emit. }
  case_bool_decide as Hlt; simpl; [|by intros [= <-]].
  destruct (bool_decide _); [|by intros [= <-]].
  eapply follow_links_invariant; [|done..].
  intros v s s' HQv HPs. by apply IH.
Qed.

End Invariant.
End CrawlerFacts.

(** ** Visited set and depth bound *)

(** C7: for every seed URL and every link graph (every behaviour [goto] of
    the pages, cyclic or not), the crawl terminates and no URL is fetched
    twice; a URL is fetched exactly when it was recorded in the visited
    set, which [scrape_page] does after the membership test and before
    the fetch. *)
Theorem crawl_fetches_each_url_once goto max_links max_depth seed :
  exists st, crawl goto max_links max_depth seed = Some st
    /\ NoDup (goto_log st)
    /\ (forall u, u ∈ goto_log st <-> u ∈ visited_urls st).
Proof.
  destruct (crawl_total goto max_links max_depth seed) as [st Hst].
  exists st. split; [done|].
  pose (P := fun st : CrawlState =>
    NoDup (goto_log st) /\ forall u, u ∈ goto_log st <-> u ∈ visited_urls st).
  change (P st).
  eapply (scrape_page_invariant goto max_links max_depth (fun _ _ => True) P);
    [| | |exact I| |exact Hst].
  - intros u d s _ _ Hu [Hnd Hiff]. split; simpl.
    + apply NoDup_app. split_and!; [done| |apply NoDup_singleton].
      intros x Hx Hx'. apply list_elem_of_singleton in Hx' as ->.
      by apply Hu, Hiff.
    + intros x. rewrite elem_of_app, elem_of_union, Hiff.
      by rewrite list_elem_of_singleton, elem_of_singleton.
  - intros u d soup doc s _ _ _ _ _ HP. exact HP.
  - done.
  - split; [apply NoDup_nil_2|]. intros u. simpl. set_solver.
Qed.

Lemma extract_Some page_url depth soup doc :
  extract page_url depth soup = Some doc <->
  (PyStr.len (cleaned_text soup) > 50)%Z /\ doc = page_document page_url depth soup.
Proof.
  unfold extract. case_bool_decide; split.
  - by intros [= <-].
  - by intros [_ ->].
  - done.
  - by intros [? _].
Qed.

Lemma page_document_depth page_url depth soup :
  crawl_depth (page_document page_url depth soup) = Some (MInt depth).
Proof. unfold crawl_depth. simpl. by simplify_map_eq. Qed.

(** C8: the crawl terminates and every document it emits records a depth
    between 0 and the limit; with a limit of 0 and a seed page whose text
    passes the threshold, the result is the single document of the seed at
    depth 0, and the seed is the only page fetched. *)
Theorem crawl_depth_bounded goto max_links max_depth seed :
  exists st, crawl goto max_links max_depth seed = Some st
    /\ (forall doc, doc ∈ documents st ->
          exists depth, crawl_depth doc = Some (MInt depth)
            /\ (0 <= depth <= max_depth)%Z)
    /\ (max_depth = 0%Z -> forall soup, goto seed = Some soup ->
          (PyStr.len (cleaned_text soup) > 50)%Z ->
          documents st = [page_document seed 0 soup] /\ goto_log st = [seed]).
Proof.
  destruct (crawl_total goto max_links max_depth seed) as [st Hst].
  exists st. split_and!; [done| |].
  - pose (P := fun st : CrawlState =>
      forall doc, doc ∈ documents st ->
        exists depth, crawl_depth doc = Some (MInt depth)
          /\ (0 <= depth <= max_depth)%Z).
    change (P st).
    eapply (scrape_page_invariant goto max_links max_depth
              (fun _ d => (0 <= d)%Z) P); [| | | |  |exact Hst].
    + intros u d s _ _ _ HP. exact HP.
    + intros u d soup doc s Hd Hle _ [_ ->]%extract_Some _ HP doc'.
      simpl. rewrite elem_of_app, list_elem_of_singleton.
      intros [Hin| ->]; [by apply HP|].
      exists d. split; [apply page_document_depth|lia].
    + intros u d href v Hd _ _. simpl. lia.
    + simpl. lia.
    + intros doc Hin. simpl in Hin. by apply elem_of_nil in Hin.
  - intros -> soup Hgoto Hlen. revert Hst.
    unfold crawl, crawl_fuel. cbn [scrape_page].
    rewrite (bool_decide_eq_false_2 (0 > 0)%Z) by lia.
    rewrite (bool_decide_eq_false_2 (seed ∈ _)) by (simpl; set_solver).
    rewrite (bool_decide_eq_false_2 (0 < 0)%Z) by lia.
    cbn [orb andb]. rewrite Hgoto. unfold extract.
    rewrite bool_decide_eq_true_2 by done.
    by intros [= <-].
Qed.

(** The scenario of the specification: a substantial seed page with two
    same-origin links, crawled with a depth limit of 0. *)
Lemma crawl_depth_bounded_witness :
  exists st, crawl Scenario.site 2 0 Scenario.seed = Some st
    /\ documents st = [page_document Scenario.seed 0 Scenario.seed_soup]
    /\ goto_log st = [Scenario.seed].
Proof.
  destruct (crawl_depth_bounded Scenario.site 2 0 Scenario.seed)
    as (st & Hst & _ & Hzero).
  exists st. split; [exact Hst|].
  apply Hzero; [reflexivity|reflexivity|vm_compute; reflexivity].
Defined.

(** ** Links followed by the crawler *)







(** The dispatch on some links of the seed page: a scheme other than
    [http], an upper-case scheme and a relative path are skipped; a
    network-path reference starts with [/] and is resolved like a path. *)
Lemma link_action_examples :
  link_action Scenario.seed "ftp://example.com/f" = Continue
  /\ link_action Scenario.seed "HTTP://example.com/x" = Continue
  /\ link_action Scenario.seed "about.html" = Continue
  /\ link_action Scenario.seed "//example.com/x"
     = Follow "https://example.com//example.com/x"
  /\ link_action Scenario.seed "https://other.org/" = Continue
  /\ link_action Scenario.seed "https://example.com/about"
     = Follow "https://example.com/about".
Proof. split_and!; vm_compute; reflexivity. Qed.

(** ** The minimum-signal filter *)

(** C5 as stated fails at the boundary: a text of exactly 50 characters is
    not under the threshold, and yet no document is extracted from it. *)
Lemma extract_empty_at_exactly_50 :
  PyStr.len (cleaned_text fifty_soup) = 50%Z
  /\ extract Scenario.seed 0 fifty_soup = None
  /\ ~ (extract Scenario.seed 0 fifty_soup = None
         <-> (PyStr.len (cleaned_text fifty_soup) < 50)%Z).
Proof.
  split_and!; [reflexivity|reflexivity|].
  intros [H _]. specialize (H eq_refl). vm_compute in H. discriminate.
Qed.

(** ** Extractor selection in [initialize_knowledge] *)

Lemma scrape_with_browser_total b url max_links max_depth :
  is_Some (_scrape_with_browser_sync b url max_links max_depth).
Proof.
  unfold _scrape_with_browser_sync. destruct (launch b); [by eexists|].
  destruct (crawl_total (browser_goto b) max_links max_depth url) as [st ->].
  by eexists.
Qed.

(** C9: a request that passes validation always calls the browser crawler
    first; the fallback reader is called exactly when the crawler yields
    no document (it raised or returned none); and the endpoint fails with
    the no-content error exactly when both yield no document. *)
Theorem initialize_selection {St} (client : StoreClient St) web request_url g s :
  agent g = true ->
  PyStr.strip request_url <> EmptyString ->
  valid_scheme (PyStr.strip request_url) = true ->
  exists res g' s' called,
    initialize_knowledge client web request_url g s = Some (res, g', s', called)
    /\ (called = [BrowserScraper] \/ called = [BrowserScraper; RegularReader])
    /\ (RegularReader ∈ called
          <-> crawler_yields_nothing web (PyStr.strip request_url))
    /\ (res = HTTPException 400 no_content_detail
          <-> crawler_yields_nothing web (PyStr.strip request_url)
              /\ reader_yields_nothing web (PyStr.strip request_url)).
Proof.
  intros Hagent Hne Hvalid.
  set (url := PyStr.strip request_url) in *.
  destruct (scrape_with_browser_total (web_browser web) url 2 3) as [r Hr].
  assert (Hc : crawler_yields_nothing web url
               <-> match r with inl _ => True | inr docs => docs = [] end).
  { unfold crawler_yields_nothing. rewrite Hr.
    split; [by intros (? & [= <-] & ?)|eauto]. }
  assert (Hread :
    match async_read web url with
    | inl _ => [] | inr regular_docs => of_reader_doc url <$> regular_docs
    end = [] <-> reader_yields_nothing web url).
  { unfold reader_yields_nothing.
    destruct (async_read web url) as [e|docs]; [done|].
    split; [apply fmap_nil_inv|by intros ->]. }
  assert (Hnot : RegularReader ∉ [BrowserScraper]).
  { intros Hin. apply list_elem_of_singleton in Hin. discriminate. }
  assert (Hin : RegularReader ∈ [BrowserScraper; RegularReader])
    by apply list_elem_of_further, list_elem_of_here.
  unfold initialize_knowledge.
  rewrite Hagent, (bool_decide_eq_false_2 _ Hne). fold url.
  rewrite Hvalid. cbn [negb]. rewrite Hr. cbn [mbind option_bind].
  destruct r as [e|[|doc docs]].
  1, 2: rewrite (bool_decide_eq_true_2 (@nil Document = [])) by done;
    cbn [negb];
    destruct (match async_read web url with
              | inl _ => []
              | inr regular_docs => of_reader_doc url <$> regular_docs
              end) as [|d ds];
    [|destruct (add_documents client url false (d :: ds) s) as [s' [e'|]]];
    do 4 eexists; (split_and!; [reflexivity|eauto|tauto|]);
    (split; [intros Hres|intros [_ Hnone]]);
    try discriminate Hres; try (apply Hread in Hnone; discriminate Hnone);
    try done; (split; [by apply Hc|by apply Hread]).
  rewrite (bool_decide_eq_false_2 (doc :: docs = [])) by done.
  cbn [negb fmap list_fmap].
  destruct (add_documents client url true _ s) as [s' [e'|]];
    do 4 eexists; (split_and!; [reflexivity|eauto| |]).
  all: split; [intros Hres; (done || discriminate Hres)|].
  1, 3: intros Hnone; apply Hc in Hnone; discriminate Hnone.
  all: intros [Hnone _]; apply Hc in Hnone; discriminate Hnone.
Qed.

(** With no browser and a failing reader, ingestion of a well-formed URL
    ends in the no-content error after both extractors were called. *)
Lemma initialize_selection_witness :
  (agent Scenario.fresh = true
   /\ PyStr.strip " https://example.com/ " <> EmptyString
   /\ valid_scheme (PyStr.strip " https://example.com/ ") = true)
  /\ exists res g' s' called,
       initialize_knowledge (Qdrant.client Scenario.split)
         Scenario.dead_web
         " https://example.com/ " Scenario.fresh None
       = Some (res, g', s', called)
       /\ (called = [BrowserScraper] \/ called = [BrowserScraper; RegularReader])
       /\ (RegularReader ∈ called
            <-> crawler_yields_nothing Scenario.dead_web
                  (PyStr.strip " https://example.com/ "))
       /\ (res = HTTPException 400 no_content_detail
            <-> crawler_yields_nothing Scenario.dead_web
                  (PyStr.strip " https://example.com/ ")
                /\ reader_yields_nothing Scenario.dead_web
                     (PyStr.strip " https://example.com/ ")).
Proof.
  split.
  - split_and!; [reflexivity|vm_compute; discriminate|reflexivity].
  - apply (initialize_selection (Qdrant.client Scenario.split)
             Scenario.dead_web
             " https://example.com/ " Scenario.fresh None);
      [reflexivity|vm_compute; discriminate|reflexivity].
Defined.

(** ** The registry when the store fails *)

Section RemoveUrlFacts.
Context {St : Type}.
Variable client : StoreClient St.


(** Whatever error [remove_url] answers with, the globals are those it
    was called with. *)
Lemma remove_url_exception_globals fuel request_url g s status detail g' s' :
  remove_url client fuel request_url g s
    = Some (HTTPException status detail, g', s') ->
  g' = g.
Proof.
  unfold remove_url. case_bool_decide; [by intros [= _ _ <- _]|].
  case_bool_decide; cbn [negb]; [|by intros [= _ _ <- _]].
  destruct (remove_scan _ _ _ _ _ _ _) as [fin|]; [|done].
  cbn [mbind option_bind]. destruct (scan_result fin); [|done].
  by intros [= _ _ <- _].
Qed.

End RemoveUrlFacts.


(** ** Pagination of the deletion scan *)

Section PagedScan.
Variable pages : list (list Point).
Variable url : string.

(** Every page that comes with a cursor, that is, every page but the
    last, holds at least one record. *)
Hypothesis pages_with_cursor_nonempty : forall k page,
  pages !! k = Some page -> S k < length pages -> page <> [].

Local Abbreviation matching l :=
  (filter (fun point => Is_true (url_matches url point)) l).



End PagedScan.



(** ** Termination of the scans *)

Section ScanTermination.
Context {St : Type}.
Variable client : StoreClient St.

(** [rank s offset] bounds the number of pages still to come from
    [offset] in the store [s]. *)
Variable rank : St -> option Cursor -> nat.
Hypothesis scroll_advances : forall s offset with_payload points next,
  scroll client s 100 offset with_payload = inr (points, Some next) ->
  points <> [] -> rank s (Some next) < rank s offset.
Hypothesis delete_keeps_rank : forall s ids s' offset,
  delete client s ids = inr s' -> rank s' offset <= rank s offset.

Lemma remove_scan_terminates fuel url s offset deleted_count seen :
  rank s offset < fuel ->
  is_Some (remove_scan client fuel url s offset deleted_count seen).
Proof.
  revert s offset deleted_count seen.
  induction fuel as [|fuel IH]; intros s offset deleted_count seen Hfuel; [lia|].
  cbn [remove_scan].
  destruct (scroll client s 100 offset true) as [e|[[|p ps] next]] eqn:Hscroll;
    [by eexists..|].
  destruct (point_id <$> _) as [|i ids] eqn:Hids.
  - destruct next as [next|]; [|by eexists].
    apply IH. eapply scroll_advances in Hscroll; [lia|done].
  - destruct (delete client s (i :: ids)) as [e|s'] eqn:Hdel; [by eexists|].
    destruct next as [next|]; [|by eexists].
    apply IH. eapply scroll_advances in Hscroll; [|done].
    specialize (delete_keeps_rank _ _ _ (Some next) Hdel). lia.
Qed.

Lemma clear_scan_terminates fuel s offset all_point_ids seen :
  rank s offset < fuel ->
  is_Some (clear_scan client fuel s offset all_point_ids seen).
Proof.
  revert offset all_point_ids seen.
  induction fuel as [|fuel IH]; intros offset all_point_ids seen Hfuel; [lia|].
  cbn [clear_scan].
  destruct (scroll client s 100 offset false) as [e|[[|p ps] next]] eqn:Hscroll;
    [by eexists..|].
  destruct next as [next|]; [|by eexists].
  apply IH. eapply scroll_advances in Hscroll; [lia|done].
Qed.

(** C3, as amended: on a store whose continuation cursors advance (every
    non-empty page that comes with a cursor brings the scan strictly
    closer to the end, by a measure that deletions do not increase), the
    scans of [remove_url] and of [clear_knowledge_base] end, and so do the
    two endpoints: with an exhausted cursor, an empty page, or an
    exception of the store.  The loops themselves do not check that the
    cursor advances. *)
Theorem scans_terminate_on_advancing_cursor fuel request_url g s :
  rank s None < fuel ->
  is_Some (remove_scan client fuel (PyStr.strip request_url) s None 0 [])
  /\ is_Some (clear_scan client fuel s None [] [])
  /\ is_Some (remove_url client fuel request_url g s)
  /\ is_Some (clear_knowledge_base client fuel g s).
Proof.
  intros Hfuel.
  pose proof (remove_scan_terminates fuel (PyStr.strip request_url) s None 0 []
                Hfuel) as Hremove.
  pose proof (clear_scan_terminates fuel s None [] [] Hfuel) as Hclear.
  split_and!; [done|done| |].
  - unfold remove_url. destruct Hremove as [fin ->].
    case_bool_decide; [by eexists|].
    case_bool_decide; cbn [negb mbind option_bind]; [|by eexists].
    destruct (scan_result fin); by eexists.
  - unfold clear_knowledge_base. destruct Hclear as [fin ->].
    cbn [mbind option_bind].
    destruct (scan_result fin) as [e|[|i ids]]; try by eexists.
    destruct (delete client s (i :: ids)); by eexists.
Qed.

End ScanTermination.

(** On the three-page store the cursor is the index of the next page, so
    the number of pages left is a measure; four iterations are enough. *)
Lemma scans_terminate_on_advancing_cursor_witness :
  let rank := fun (_ : list (list nat)) (offset : option Cursor) =>
    length Scenario.three_pages - default 0 offset in
  rank [] None < 4
  /\ is_Some (remove_scan (Stub.paged Scenario.three_pages) 4
               (PyStr.strip Scenario.seed) [] None 0 [])
  /\ is_Some (clear_scan (Stub.paged Scenario.three_pages) 4 [] None [] [])
  /\ is_Some (remove_url (Stub.paged Scenario.three_pages) 4 Scenario.seed
               Scenario.loaded [])
  /\ is_Some (clear_knowledge_base (Stub.paged Scenario.three_pages) 4
               Scenario.loaded []).
Proof.
  intros rank. split; [vm_compute; lia|].
  apply (scans_terminate_on_advancing_cursor
           (Stub.paged Scenario.three_pages) rank).
  - intros s offset with_payload points next Hscroll _. revert Hscroll.
    cbn [scroll Stub.paged]. unfold Stub.paged_scroll, rank.
    case_bool_decide as Hk; [|discriminate]. intros [= _ <-].
    revert Hk. generalize (default 0 offset). intros k. cbn [default from_option].
    unfold id. lia.
  - intros s ids s' offset _. unfold rank. lia.
  - vm_compute. lia.
Defined.

(** C3 as stated fails: on a store whose cursor does not advance, neither
    scan ends, however many iterations are allowed, and neither endpoint
    returns. *)
Lemma scans_diverge_on_stuck_cursor :
  (forall fuel, remove_scan Stub.stuck fuel Scenario.seed tt None 0 [] = None)
  /\ (forall fuel, clear_scan Stub.stuck fuel tt None [] [] = None)
  /\ (forall fuel,
        remove_url Stub.stuck fuel Scenario.seed Scenario.loaded tt = None)
  /\ (forall fuel,
        clear_knowledge_base Stub.stuck fuel Scenario.loaded tt = None).
Proof.
  assert (Hremove : forall fuel offset deleted_count seen,
    remove_scan Stub.stuck fuel Scenario.seed tt offset deleted_count seen = None).
  { induction fuel as [|fuel IH]; intros offset deleted_count seen; [done|].
    cbn [remove_scan Stub.stuck scroll]. simpl. apply IH. }
  assert (Hclear : forall fuel offset all_point_ids seen,
    clear_scan Stub.stuck fuel tt offset all_point_ids seen = None).
  { induction fuel as [|fuel IH]; intros offset all_point_ids seen; [done|].
    cbn [clear_scan Stub.stuck scroll]. apply IH. }
  split_and!; intros fuel.
  - apply Hremove.
  - apply Hclear.
  - unfold remove_url. rewrite Hremove. reflexivity.
  - unfold clear_knowledge_base. rewrite Hclear. reflexivity.
Qed.

(** ** [clear_knowledge_base] *)

(** C6: before the first ingestion the collection does not exist, the
    first [scroll] raises, and [clear_knowledge_base] answers with status
    500 instead of reporting that nothing was there to remove; the
    registry is left as it was. *)
Theorem clear_fails_without_collection split fuel g :
  clear_knowledge_base (Qdrant.client split) (S fuel) g None
  = Some (HTTPException 500
            ("Error clearing knowledge base: " +:+ Qdrant.not_found),
          g, None, []).
Proof. reflexivity. Qed.

(** On a collection that exists and is empty the endpoint succeeds,
    reports 0 and calls no delete. *)
Lemma clear_empty_collection split fuel g :
  clear_knowledge_base (Qdrant.client split) (S fuel) g (Some [])
  = Some (Response {| clr_success := true; clr_removed := 0 |},
          {| agent := agent g; knowledge_loaded := false; loaded_urls := [] |},
          Some [], []).
Proof. reflexivity. Qed.

Section PagedClear.
Variable pages : list (list Point).
Hypothesis pages_nonempty : Forall (fun page => page <> []) pages.

Lemma paged_clear_scan fuel k offset s all_point_ids seen :
  default 0 offset = k -> k < length pages -> length pages - k <= fuel ->
  clear_scan (Stub.paged pages) fuel s offset all_point_ids seen
  = Some {| scan_store := s;
            scan_seen := seen ++ concat (drop k pages);
            scan_result :=
              inr (all_point_ids ++ (point_id <$> concat (drop k pages))) |}.
Proof.
  revert k offset all_point_ids seen.
  induction fuel as [|fuel IH]; intros k offset all_point_ids seen Hk Hlt Hfuel;
    [lia|].
  destruct (lookup_lt_is_Some_2 pages k Hlt) as [page Hpage].
  assert (Hne : page <> []).
  { eapply Forall_lookup_1 in pages_nonempty; [|exact Hpage]. done. }
  rewrite (drop_S _ _ _ Hpage). cbn [concat]. rewrite fmap_app, !app_assoc.
  cbn [clear_scan Stub.paged scroll]. unfold Stub.paged_scroll.
  rewrite Hk, Hpage. cbn [default from_option]. unfold id.
  destruct page as [|p ps]; [done|].
  case_bool_decide as Hnext.
  - rewrite (IH (S k) (Some (S k))) by (done || lia). done.
  - rewrite drop_ge by lia. simpl. by rewrite !app_nil_r.
Qed.

(** When records exist, the ids of all pages are collected and passed to
    a single delete. *)
Lemma clear_collects_all_ids g s :
  pages <> [] ->
  clear_knowledge_base (Stub.paged pages) (length pages) g s
  = Some (Response {| clr_success := true;
                      clr_removed := length (concat pages) |},
          {| agent := agent g; knowledge_loaded := false; loaded_urls := [] |},
          s ++ [point_id <$> concat pages],
          [point_id <$> concat pages]).
Proof.
  intros Hcons.
  assert (Hlen : 0 < length pages) by (destruct pages; [done|simpl; lia]).
  unfold clear_knowledge_base.
  rewrite (paged_clear_scan (length pages) 0 None s [] []) by (done || lia).
  cbn [mbind option_bind scan_result app]. rewrite drop_0.
  destruct (point_id <$> concat pages) as [|i ids] eqn:Hids.
  - apply fmap_nil_inv in Hids. destruct pages as [|[|p ps] pages']; try done.
    by apply Forall_cons_1 in pages_nonempty as [? _].
  - cbn [delete Stub.paged].
    rewrite <- (length_fmap point_id (concat pages)), Hids. done.
Qed.

End PagedClear.

(** ** Ingestion followed by removal *)

(** C1: the seed page and the page it links to are both ingested, so the
    ingestion reports two documents; each is stored under the URL of its
    own page, so the removal of the seed URL finds and deletes one point.
    The seed leaves the registry while the point of the linked page stays
    in the store. *)
Theorem round_trip_misses_linked_page split :
  (fun '(ingested, deleted, sources, s) =>
     (ingested, deleted, sources, stored_urls s))
    <$> round_trip (Qdrant.client split) Scenario.web 2 Scenario.seed
          Scenario.fresh None
  = Some (2, 1, [], [Some (MStr "https://example.com/about")]).
Proof. vm_compute. reflexivity. Qed.

(** The documents of the fallback reader are all stored under the
    requested URL, and the removal finds every one of them. *)
Lemma round_trip_reader_documents split :
  (fun '(ingested, deleted, sources, s) =>
     (ingested, deleted, sources, stored_urls s))
    <$> round_trip (Qdrant.client split) reader_web 2 Scenario.seed
          Scenario.fresh None
  = Some (2, 2, [], []).
Proof. vm_compute. reflexivity. Qed.

Lemma list_remove_first_not_elem url l :
  NoDup l -> url ∉ list_remove_first url l.
Proof.
  induction 1 as [|x l Hx Hnd IH]; simpl; [apply not_elem_of_nil|].
  case_bool_decide as Heq; [by subst|].
  rewrite not_elem_of_cons. split; [congruence|done].
Qed.

(** A successful removal takes the URL out of the registry. *)
Lemma remove_url_drops_url {St} (client : StoreClient St) fuel request_url
    g s r g' s' :
  NoDup (loaded_urls g) ->
  remove_url client fuel request_url g s = Some (Response r, g', s') ->
  (PyStr.strip request_url ∉ loaded_urls g')
  /\ rm_remaining_urls r = loaded_urls g'.
Proof.
  intros Hnd. unfold remove_url.
  case_bool_decide; [done|]. case_bool_decide; cbn [negb]; [|done].
  destruct (remove_scan _ _ _ _ _ _ _) as [fin|]; [|done].
  cbn [mbind option_bind]. destruct (scan_result fin); [done|].
  intros [= <- <- _]. split; [|done]. by apply list_remove_first_not_elem.
Qed.

(** The registry never holds a URL twice. *)
Lemma initialize_keeps_NoDup {St} (client : StoreClient St) web request_url
    g s res g' s' called :
  NoDup (loaded_urls g) ->
  initialize_knowledge client web request_url g s = Some (res, g', s', called) ->
  NoDup (loaded_urls g').
Proof.
  intros Hnd. unfold initialize_knowledge.
  destruct (negb (agent g)); [by intros [= _ <- _ _]|].
  case_bool_decide; [by intros [= _ <- _ _]|].
  destruct (negb (valid_scheme _)); [by intros [= _ <- _ _]|].
  destruct (_scrape_with_browser_sync _ _ _ _) as [scraped|]; [|done].
  cbn [mbind option_bind].
  destruct (if negb _ then _ else _) as [[|d ds] called'];
    [by intros [= _ <- _ _]|].
  destruct (add_documents _ _ _ _ _) as [s1 [e|]]; [by intros [= _ <- _ _]|].
  intros [= _ <- _ _]. cbn [loaded_urls].
  case_bool_decide as Hin; [done|].
  apply NoDup_app. split_and!; [done| |apply NoDup_singleton].
  intros x Hx Hx'. apply list_elem_of_singleton in Hx' as ->. done.
Qed.

(** ** The scans on the reference store *)

Lemma filter_ext_elem {A} (P Q : A -> Prop)
    `{!forall x, Decision (P x), !forall x, Decision (Q x)} (l : list A) :
  (forall x, x ∈ l -> P x <-> Q x) -> filter P l = filter Q l.
Proof.
  induction l as [|a l IH]; intros Hiff; [done|].
  assert (Ha : P a <-> Q a) by (apply Hiff; left).
  assert (Hl : filter P l = filter Q l).
  { apply IH. intros x Hx. apply Hiff. by right. }
  destruct (decide (P a)).
  - rewrite !filter_cons_True by tauto. by rewrite Hl.
  - rewrite !filter_cons_False by tauto. done.
Qed.

Lemma filter_all {A} (P : A -> Prop) `{!forall x, Decision (P x)} (l : list A) :
  (forall x, x ∈ l -> P x) -> filter P l = l.
Proof.
  induction l as [|a l IH]; intros Hall; [done|].
  rewrite filter_cons_True by (apply Hall; left).
  f_equal. apply IH. intros x Hx. apply Hall. by right.
Qed.

Lemma filter_none {A} (P : A -> Prop) `{!forall x, Decision (P x)} (l : list A) :
  (forall x, x ∈ l -> ~ P x) -> filter P l = [].
Proof.
  induction l as [|a l IH]; intros Hnone; [done|].
  rewrite filter_cons_False by (apply Hnone; left).
  apply IH. intros x Hx. apply Hnone. by right.
Qed.

Lemma id_sorted_inj points p q :
  id_sorted points -> p ∈ points -> q ∈ points ->
  point_id p = point_id q -> p = q.
Proof.
  induction 1 as [|x l Hl IH Hx]; intros Hp Hq Heq.
  - by apply elem_of_nil in Hp.
  - rewrite Forall_forall in Hx.
    apply elem_of_cons in Hp as [->|Hp], Hq as [->|Hq]; [done| | |by apply IH].
    + specialize (Hx _ Hq). lia.
    + specialize (Hx _ Hp). lia.
Qed.

Section QdrantScan.
Variable split : string -> list string.
Variable url : string.

Local Abbreviation matching l :=
  (filter (fun point => Is_true (url_matches url point)) l).
Local Abbreviation others l :=
  (filter (fun point => ~ Is_true (url_matches url point)) l).

(** Deleting the matching points of a page by id removes them and nothing
    else, the ids being distinct. *)
Lemma qdrant_delete_page kept page tl :
  id_sorted (page ++ tl) ->
  (forall p q, p ∈ kept -> q ∈ page -> point_id p < point_id q) ->
  filter (fun p => point_id p ∉ point_id <$> matching page) (kept ++ page ++ tl)
  = kept ++ others page ++ tl.
Proof.
  intros Hsorted Hkept.
  pose proof (StronglySorted_app_1_l _ _ _ Hsorted) as Hpage.
  assert (Hin : forall p, p ∈ point_id <$> matching page ->
                  exists q, q ∈ page /\ url_matches url q /\ p = point_id q).
  { intros p (q & -> & [Hm Hq]%list_elem_of_filter)%list_elem_of_fmap. eauto. }
  rewrite !filter_app. f_equal; [|f_equal].
  - apply filter_all. intros p Hp (q & Hq & _ & Heq)%Hin.
    specialize (Hkept p q Hp Hq). lia.
  - apply filter_ext_elem. intros p Hp. split.
    + intros Hnot Hm. apply Hnot, list_elem_of_fmap. exists p.
      split; [done|]. by apply list_elem_of_filter.
    + intros Hnot (q & Hq & Hm & Heq)%Hin.
      assert (p = q) as -> by (by eapply id_sorted_inj).
      done.
  - apply filter_all. intros p Hp (q & Hq & _ & Heq)%Hin.
    pose proof (StronglySorted_app_1_elem_of _ _ _ _ _ Hsorted Hq Hp) as Hlt.
    simpl in Hlt. lia.
Qed.

(** From the cursor [c] on: the points before it ([kept]) have been
    scanned, the points from it on ([rest]) are still to come. *)
Lemma qdrant_remove_scan fuel kept rest offset deleted_count seen :
  (forall p q, p ∈ kept -> q ∈ rest -> point_id p < point_id q) ->
  (forall q, q ∈ rest -> default 0 offset <= point_id q) ->
  (forall p, p ∈ kept -> point_id p < default 0 offset) ->
  id_sorted rest ->
  length rest < fuel ->
  remove_scan (Qdrant.client split) fuel url (Some (kept ++ rest)) offset
    deleted_count seen
  = Some {| scan_store := Some (kept ++ others rest);
            scan_seen := seen ++ rest;
            scan_result := inr (deleted_count + length (matching rest)) |}.
Proof.
  revert kept rest offset deleted_count seen.
  induction fuel as [|fuel IH];
    intros kept rest offset deleted_count seen Hkr Hrest Hkept Hsorted Hfuel;
    [lia|].
  cbn [remove_scan scroll Qdrant.client]. unfold Qdrant.scroll.
  assert (Hfrom : filter (fun p => default 0 offset <= point_id p) (kept ++ rest)
                  = rest).
  { rewrite filter_app, filter_none, filter_all; [done|done|].
    intros p Hp. specialize (Hkept p Hp). lia. }
  rewrite Hfrom. clear Hfrom.
  assert (HN : 0 < Z.to_nat 100) by lia.
  generalize dependent (Z.to_nat 100). intros N HN.
  pose proof (take_drop N rest) as Hsplit.
  destruct (take N rest) as [|p0 page0] eqn:Hpage.
  { destruct rest; [|destruct N; [lia|discriminate]].
    simpl. by rewrite !app_nil_r, Nat.add_0_r. }
  set (page := p0 :: page0) in *. set (tl := drop N rest) in *.
  assert (Hsorted' : id_sorted (page ++ tl)) by by rewrite Hsplit.
  assert (Hcont : forall s' deleted_count',
    s' = Some (kept ++ others page ++ tl) ->
    deleted_count' = deleted_count + length (matching page) ->
    match point_id <$> rest !! N with
    | Some offset' =>
        remove_scan (Qdrant.client split) fuel url s' (Some offset')
          deleted_count'
          (seen ++ page)
    | None =>
        Some {| scan_store := s'; scan_seen := seen ++ page;
                scan_result := inr deleted_count' |}
    end
    = Some {| scan_store := Some (kept ++ others rest);
              scan_seen := seen ++ rest;
              scan_result := inr (deleted_count + length (matching rest)) |}).
  { intros s' deleted_count' -> ->.
    rewrite <- Hsplit at 2 3 4. rewrite !filter_app, length_app.
    destruct (rest !! N) as [q|] eqn:Hq; cbn [fmap option_fmap option_map].
    - assert (Htl : tl = q :: drop (S N) rest) by by apply drop_S.
      assert (Hqtl : q ∈ tl) by (rewrite Htl; left).
      rewrite (app_assoc kept), IH.
      + by rewrite <- !app_assoc, Nat.add_assoc.
      + intros p x [Hp|[_ Hp]%list_elem_of_filter]%elem_of_app Hx.
        * apply Hkr; [done|]. rewrite <- Hsplit. apply elem_of_app. by right.
        * exact (StronglySorted_app_1_elem_of _ _ _ _ _ Hsorted' Hp Hx).
      + intros x Hx. cbn [default from_option]. unfold id.
        rewrite Htl in Hx. apply elem_of_cons in Hx as [->|Hx]; [done|].
        apply StronglySorted_app_1_r in Hsorted'. rewrite Htl in Hsorted'.
        apply StronglySorted_cons in Hsorted' as [Hall _].
        rewrite Forall_forall in Hall. specialize (Hall _ Hx). simpl in Hall. lia.
      + intros p [Hp|[_ Hp]%list_elem_of_filter]%elem_of_app;
          cbn [default from_option]; unfold id.
        * apply Hkr; [done|]. rewrite <- Hsplit. apply elem_of_app. by right.
        * exact (StronglySorted_app_1_elem_of _ _ _ _ _ Hsorted' Hp Hqtl).
      + by apply StronglySorted_app_1_r in Hsorted'.
      + apply lookup_lt_Some in Hq. subst tl. rewrite length_drop. lia.
    - apply lookup_ge_None_1 in Hq.
      assert (Htl : tl = []) by (by apply drop_ge).
      rewrite Htl. simpl. by rewrite !app_nil_r, Nat.add_0_r. }
  destruct (point_id <$> matching page) as [|i ids] eqn:Hids.
  - apply Hcont; [|].
    + apply fmap_nil_inv in Hids.
      replace (others page) with page; [by rewrite Hsplit|].
      symmetry. apply filter_all. intros q Hq Hm.
      assert (Hin : q ∈ matching page) by by apply list_elem_of_filter.
      rewrite Hids in Hin. by eapply elem_of_nil.
    + apply fmap_nil_inv in Hids. by rewrite Hids, Nat.add_0_r.
  - rewrite <- Hids. cbn [delete Qdrant.client Qdrant.delete].
    apply Hcont.
    + f_equal. rewrite <- Hsplit at 1. apply qdrant_delete_page; [done|].
      intros p q Hp Hq. apply Hkr; [done|]. rewrite <- Hsplit.
      apply elem_of_app. by left.
    + by rewrite length_fmap.
Qed.

(** The deletion scan on the reference store: every point is examined
    once, in id order; the points stored under the URL are deleted and
    counted, the others stay. *)
Lemma qdrant_remove_scan_all fuel points :
  id_sorted points -> length points < fuel ->
  remove_scan (Qdrant.client split) fuel url (Some points) None 0 []
  = Some {| scan_store := Some (others points);
            scan_seen := points;
            scan_result := inr (length (matching points)) |}.
Proof.
  intros Hsorted Hfuel.
  apply (qdrant_remove_scan fuel [] points None 0 []); try done.
  - intros p q Hp. by apply elem_of_nil in Hp.
  - intros q _. simpl. lia.
  - intros p Hp. by apply elem_of_nil in Hp.
Qed.

End QdrantScan.

(** [remove_url] on the reference store. *)
Lemma qdrant_remove_url split fuel request_url g points :
  PyStr.strip request_url <> EmptyString ->
  PyStr.strip request_url ∈ loaded_urls g ->
  id_sorted points -> length points < fuel ->
  exists r g',
    remove_url (Qdrant.client split) fuel request_url g (Some points)
    = Some (Response r, g',
            Some (filter (fun point =>
                    ~ Is_true (url_matches (PyStr.strip request_url) point))
                  points))
    /\ rm_deleted_count (rm_message r)
       = length (filter (fun point =>
                   Is_true (url_matches (PyStr.strip request_url) point)) points)
    /\ loaded_urls g' = list_remove_first (PyStr.strip request_url) (loaded_urls g).
Proof.
  intros Hne Hin Hsorted Hfuel. unfold remove_url.
  rewrite (bool_decide_eq_false_2 _ Hne), (bool_decide_eq_true_2 _ Hin).
  cbn [negb]. rewrite qdrant_remove_scan_all by done.
  cbn [mbind option_bind scan_result scan_store]. by do 2 eexists.
Qed.

(** The collecting scan on the reference store. *)
Lemma qdrant_clear_scan split fuel kept rest offset all_point_ids seen :
  (forall q, q ∈ rest -> default 0 offset <= point_id q) ->
  (forall p, p ∈ kept -> point_id p < default 0 offset) ->
  id_sorted rest ->
  length rest < fuel ->
  clear_scan (Qdrant.client split) fuel (Some (kept ++ rest)) offset
    all_point_ids seen
  = Some {| scan_store := Some (kept ++ rest);
            scan_seen := seen ++ (Qdrant.without_payload <$> rest);
            scan_result := inr (all_point_ids ++ (point_id <$> rest)) |}.
Proof.
  revert rest kept offset all_point_ids seen.
  induction fuel as [|fuel IH];
    intros rest kept offset all_point_ids seen Hrest Hkept Hsorted Hfuel; [lia|].
  cbn [clear_scan scroll Qdrant.client]. unfold Qdrant.scroll.
  assert (Hfrom : filter (fun p => default 0 offset <= point_id p) (kept ++ rest)
                  = rest).
  { rewrite filter_app, filter_none, filter_all; [done|done|].
    intros p Hp. specialize (Hkept p Hp). lia. }
  rewrite Hfrom. clear Hfrom.
  assert (HN : 0 < Z.to_nat 100) by lia.
  generalize dependent (Z.to_nat 100). intros N HN.
  pose proof (take_drop N rest) as Hsplit.
  destruct (take N rest) as [|p0 page0] eqn:Hpage.
  { destruct rest; [|destruct N; [lia|discriminate]].
    simpl. by rewrite !app_nil_r. }
  set (page := p0 :: page0) in *. set (tl := drop N rest) in *.
  assert (Hsorted' : id_sorted (page ++ tl)) by by rewrite Hsplit.
  assert (Hids : point_id <$> (Qdrant.without_payload <$> page)
                 = point_id <$> page).
  { rewrite <- list_fmap_compose. by apply list_fmap_ext. }
  assert (Hcont :
    match point_id <$> rest !! N with
    | Some offset' =>
        clear_scan (Qdrant.client split) fuel (Some (kept ++ rest)) (Some offset')
          (all_point_ids ++ (point_id <$> (Qdrant.without_payload <$> page)))
          (seen ++ (Qdrant.without_payload <$> page))
    | None =>
        Some {| scan_store := Some (kept ++ rest);
                scan_seen := seen ++ (Qdrant.without_payload <$> page);
                scan_result :=
                  inr (all_point_ids
                       ++ (point_id <$> (Qdrant.without_payload <$> page))) |}
    end
    = Some {| scan_store := Some (kept ++ rest);
              scan_seen := seen ++ (Qdrant.without_payload <$> rest);
              scan_result := inr (all_point_ids ++ (point_id <$> rest)) |}).
  { rewrite Hids.
    destruct (rest !! N) as [q|] eqn:Hq; cbn [fmap option_fmap option_map].
    - assert (Htl : tl = q :: drop (S N) rest) by by apply drop_S.
      assert (Hqtl : q ∈ tl) by (rewrite Htl; left).
      assert (Hqrest : q ∈ rest).
      { rewrite <- Hsplit. apply elem_of_app. by right. }
      assert (Hstore : kept ++ rest = (kept ++ page) ++ tl)
        by by rewrite <- app_assoc, Hsplit.
      rewrite Hstore, IH.
      + rewrite <- Hsplit, !fmap_app, !app_assoc. done.
      + intros x Hx. cbn [default from_option]. unfold id.
        rewrite Htl in Hx. apply elem_of_cons in Hx as [->|Hx]; [done|].
        apply StronglySorted_app_1_r in Hsorted'. rewrite Htl in Hsorted'.
        apply StronglySorted_cons in Hsorted' as [Hall _].
        rewrite Forall_forall in Hall. specialize (Hall _ Hx).
        simpl in Hall. lia.
      + intros p [Hp|Hp]%elem_of_app; cbn [default from_option]; unfold id.
        * specialize (Hkept p Hp). specialize (Hrest q Hqrest). lia.
        * exact (StronglySorted_app_1_elem_of _ _ _ _ _ Hsorted' Hp Hqtl).
      + by apply StronglySorted_app_1_r in Hsorted'.
      + apply lookup_lt_Some in Hq. subst tl. rewrite length_drop. lia.
    - apply lookup_ge_None_1 in Hq.
      assert (Hall : page = rest).
      { rewrite <- Hsplit. subst tl. rewrite drop_ge by done.
        by rewrite app_nil_r. }
      by rewrite Hall. }
  exact Hcont.
Qed.

(** [clear_knowledge_base] on the reference store with records: one
    delete with the ids of all of them, after which the collection is
    empty. *)
Lemma qdrant_clear_all split fuel g points :
  id_sorted points -> points <> [] -> length points < fuel ->
  clear_knowledge_base (Qdrant.client split) fuel g (Some points)
  = Some (Response {| clr_success := true; clr_removed := length points |},
          {| agent := agent g; knowledge_loaded := false; loaded_urls := [] |},
          Some [], [point_id <$> points]).
Proof.
  intros Hsorted Hne Hfuel. unfold clear_knowledge_base.
  pose proof (qdrant_clear_scan split fuel [] points None [] []) as Hscan.
  cbn [app] in Hscan. rewrite Hscan; try done.
  - cbn [mbind option_bind scan_result app].
    destruct (point_id <$> points) as [|i ids] eqn:Hids;
      [by apply fmap_nil_inv in Hids|].
    rewrite <- Hids, length_fmap.
    cbn [delete Qdrant.client Qdrant.delete].
    rewrite filter_none; [done|].
    intros p Hp Hnot. apply Hnot, list_elem_of_fmap. eauto.
  - intros q _. simpl. lia.
  - intros p Hp. by apply elem_of_nil in Hp.
Qed.


(** * Further properties *)

(** ** The cleaned text *)

Section Stripping.
Variable p : ascii -> bool.

Lemma lstrip_by_get s :
  exists k, forall i,
    String.get i (PyStr.lstrip_by p s) = String.get (k + i) s.
Proof.
  induction s as [|c s [k IH]]; simpl.
  - by exists 0.
  - destruct (p c); [|by exists 0]. exists (S k). intros i. apply IH.
Qed.

Lemma lstrip_by_head s c :
  String.get 0 (PyStr.lstrip_by p s) = Some c -> p c = false.
Proof.
  induction s as [|d s IH]; simpl; [done|].
  destruct (p d) eqn:Hd; [done|]. simpl. by intros [= <-].
Qed.

Lemma rstrip_by_get s i c :
  String.get i (PyStr.rstrip_by p s) = Some c -> String.get i s = Some c.
Proof.
  revert i. induction s as [|d s IH]; intros i; simpl; [done|].
  destruct (PyStr.rstrip_by p s) as [|e r] eqn:Hr.
  - destruct (p d); [done|]. destruct i; [done|]. by destruct i.
  - destruct i; [done|]. simpl. apply IH.
Qed.

(** A character that [p] holds of is never the last one left. *)
Lemma rstrip_by_not_last s i c :
  String.get i (PyStr.rstrip_by p s) = Some c -> p c = true ->
  is_Some (String.get (S i) (PyStr.rstrip_by p s)).
Proof.
  revert i. induction s as [|d s IH]; intros i; simpl; [done|].
  destruct (PyStr.rstrip_by p s) as [|e r] eqn:Hr.
  - destruct (p d) eqn:Hd; [done|]. destruct i; simpl.
    + intros [= <-]. congruence.
    + by destruct i.
  - destruct i; simpl.
    + intros _ _. by eexists.
    + apply IH.
Qed.

Lemma lstrip_by_length s :
  String.length (PyStr.lstrip_by p s) <= String.length s.
Proof.
  induction s as [|c s IH]; [done|].
  cbn [PyStr.lstrip_by]. destruct (p c); cbn [String.length]; lia.
Qed.

Lemma rstrip_by_length s :
  String.length (PyStr.rstrip_by p s) <= String.length s.
Proof.
  induction s as [|c s IH]; [done|].
  cbn [PyStr.rstrip_by].
  destruct (PyStr.rstrip_by p s); [destruct (p c)|];
    cbn [String.length] in *; lia.
Qed.

End Stripping.

Lemma get_S_is_Some s i :
  is_Some (String.get (S i) s) -> is_Some (String.get i s).
Proof.
  revert i. induction s as [|c s IH]; intros i; simpl; [by intros [? ?]|].
  destruct i; [by eexists|]. apply IH.
Qed.

Lemma sub_ws_from_blank in_run s i c :
  String.get i (PyStr.sub_ws_from in_run s) = Some c ->
  PyStr.isspace c = true -> c = " "%char.
Proof.
  revert in_run i. induction s as [|d s IH]; intros in_run i; simpl; [done|].
  destruct (PyStr.isspace d) eqn:Hd.
  - destruct in_run; [apply IH|].
    destruct i; simpl; [by intros [= <-]|apply IH].
  - destruct i; simpl; [intros [= <-]; congruence|apply IH].
Qed.

Lemma sub_ws_from_no_run in_run s :
  (in_run = true -> ~ space_at (PyStr.sub_ws_from in_run s) 0)
  /\ forall i, space_at (PyStr.sub_ws_from in_run s) i ->
       ~ space_at (PyStr.sub_ws_from in_run s) (S i).
Proof.
  revert in_run. induction s as [|d s IH]; intros in_run; simpl.
  - split; [intros _ (c & ? & _); done|intros i (c & ? & _); done].
  - destruct (PyStr.isspace d) eqn:Hd.
    + destruct in_run; [apply IH|].
      destruct (IH true) as [Hhead Hrun].
      split; [done|]. intros [|i]; simpl; [intros _; by apply Hhead|apply Hrun].
    + destruct (IH false) as [_ Hrun]. split.
      * intros _ (c & [= <-] & Hc). congruence.
      * intros [|i]; [intros (c & [= <-] & Hc); congruence|apply Hrun].
Qed.

Lemma sub_ws_from_length in_run s :
  String.length (PyStr.sub_ws_from in_run s) <= String.length s.
Proof.
  revert in_run. induction s as [|d s IH]; intros in_run; [done|].
  cbn [PyStr.sub_ws_from].
  pose proof (IH true). pose proof (IH false).
  destruct (PyStr.isspace d); [destruct in_run|]; cbn [String.length]; lia.
Qed.

(** X1: in the text kept for a page, every whitespace character is a
    single blank that stands between two characters that are not
    whitespace: there is no tab or line break, no run of blanks, and no
    blank at either end. *)
Theorem cleaned_text_single_blanks soup i :
  space_at (cleaned_text soup) i ->
  String.get i (cleaned_text soup) = Some " "%char
  /\ exists j, i = S j /\ ink_at (cleaned_text soup) j
       /\ ink_at (cleaned_text soup) (S i).
Proof.
  unfold cleaned_text, PyStr.strip, PyStr.sub_ws.
  set (w := PyStr.sub_ws_from false (soup_text soup)).
  set (l := PyStr.lstrip_by PyStr.isspace w).
  set (t := PyStr.rstrip_by PyStr.isspace l).
  destruct (lstrip_by_get PyStr.isspace w) as [k Hk]. fold l in Hk.
  assert (Hup : forall n c, String.get n t = Some c ->
                  String.get (k + n) w = Some c).
  { intros n c Hn. rewrite <- Hk. by apply rstrip_by_get in Hn. }
  assert (Hrun : forall n, space_at t n -> ~ space_at t (S n)).
  { intros n (c & Hc & Hsp) (d & Hd & Hsd).
    apply Hup in Hc, Hd. rewrite Nat.add_succ_r in Hd.
    destruct (sub_ws_from_no_run false (soup_text soup)) as [_ Hw].
    apply (Hw (k + n)); by eexists. }
  assert (Hink : forall n, is_Some (String.get n t) -> ~ space_at t n ->
                   ink_at t n).
  { intros n [c Hc] Hns. exists c. split; [done|].
    destruct (PyStr.isspace c) eqn:Hsp; [|done]. destruct Hns. by exists c. }
  intros (c & Hc & Hsp). split.
  { rewrite Hc. f_equal. eapply sub_ws_from_blank; [|done]. by apply Hup. }
  destruct i as [|j].
  { apply rstrip_by_get, lstrip_by_head in Hc. congruence. }
  exists j. split_and!; [done| |].
  - apply Hink.
    + apply get_S_is_Some. by eexists.
    + intros Hj. apply (Hrun j Hj). by exists c.
  - apply Hink.
    + by eapply rstrip_by_not_last.
    + apply Hrun. by exists c.
Qed.

(** The blank between the first two words of the seed page. *)
Lemma cleaned_text_single_blanks_witness :
  space_at (cleaned_text Scenario.seed_soup) 5
  /\ String.get 5 (cleaned_text Scenario.seed_soup) = Some " "%char
  /\ exists j, 5 = S j /\ ink_at (cleaned_text Scenario.seed_soup) j
       /\ ink_at (cleaned_text Scenario.seed_soup) 6.
Proof.
  assert (H : space_at (cleaned_text Scenario.seed_soup) 5)
    by (exists " "%char; split; reflexivity).
  split; [exact H|].
  exact (cleaned_text_single_blanks Scenario.seed_soup 5 H).
Defined.

(** X2: cleaning never lengthens a text, so a page whose raw text has at
    most 50 characters yields no document, whatever its whitespace. *)
Theorem short_page_yields_no_document page_url depth soup :
  (PyStr.len (cleaned_text soup) <= PyStr.len (soup_text soup))%Z
  /\ ((PyStr.len (soup_text soup) <= 50)%Z ->
      extract page_url depth soup = None).
Proof.
  assert (Hlen : (PyStr.len (cleaned_text soup) <= PyStr.len (soup_text soup))%Z).
  { unfold cleaned_text, PyStr.strip, PyStr.sub_ws, PyStr.len.
    pose proof (rstrip_by_length PyStr.isspace
                  (PyStr.lstrip_by PyStr.isspace
                     (PyStr.sub_ws_from false (soup_text soup)))).
    pose proof (lstrip_by_length PyStr.isspace
                  (PyStr.sub_ws_from false (soup_text soup))).
    pose proof (sub_ws_from_length false (soup_text soup)). lia. }
  split; [done|]. intros Hshort. unfold extract.
  rewrite bool_decide_eq_false_2; [done|lia].
Qed.

(** A page of two letters. *)
Lemma short_page_yields_no_document_witness :
  (PyStr.len (soup_text
     {| soup_text := "ok"; soup_title := None; soup_hrefs := [] |}) <= 50)%Z
  /\ extract Scenario.seed 0
       {| soup_text := "ok"; soup_title := None; soup_hrefs := [] |} = None.
Proof.
  assert (H : (PyStr.len (soup_text
     {| soup_text := "ok"; soup_title := None; soup_hrefs := [] |}) <= 50)%Z)
    by (vm_compute; discriminate).
  split; [exact H|].
  exact (proj2 (short_page_yields_no_document Scenario.seed 0
           {| soup_text := "ok"; soup_title := None; soup_hrefs := [] |}) H).
Defined.

(** ** The crawl as a sequence of page fetches *)

Section CrawlSteps.
Variable goto : string -> option Soup.
Variables max_links max_depth : Z.

Local Abbreviation scrape := (scrape_page goto max_links max_depth).
Local Abbreviation steps := (rtc (crawl_step goto)).

Lemma follow_links_steps recur page_url links st st' :
  (forall v s s', recur v s = Some s' -> steps s s') ->
  follow_links recur page_url links st = Some st' -> steps st st'.
Proof.
  intros Hrec. revert st.
  induction links as [|href links IH]; intros st; simpl.
  - by intros [= <-].
  - destruct (link_action page_url href) as [|v|].
    + apply IH.
    + destruct (recur v st) as [s1|] eqn:Hr; [|done].
      intros Hrest. etrans; [by eapply Hrec|by apply IH].
    + by intros [= <-].
Qed.

Lemma scrape_page_steps fuel page_url depth st st' :
  scrape fuel page_url depth st = Some st' -> steps st st'.
Proof.
  revert page_url depth st st'.
  induction fuel as [|fuel IH]; intros page_url depth st st'; [done|].
  simpl. case_bool_decide as Hd; simpl; [by intros [= <-]|].
  case_bool_decide as Hv; [by intros [= <-]|].
  destruct (goto page_url) as [soup|] eqn:Hgoto.
  2: { intros [= <-]. apply rtc_once. by constructor. }
  set (st1 := match extract page_url depth soup with
              | Some doc => emit doc (mark_visited page_url st)
              | None => mark_visited page_url st
              end).
  assert (Hst1 : steps st st1).
  { apply rtc_once. subst st1.
    destruct (extract page_url depth soup) eqn:He;
      [by eapply step_document|by eapply step_empty]. }
  destruct (_ && _); [|by intros [= <-]].
  intros Hlinks. etrans; [exact Hst1|].
  eapply follow_links_steps; [|exact Hlinks].
  intros v s s'. apply IH.
Qed.

Lemma crawl_steps seed st :
  crawl goto max_links max_depth seed = Some st -> steps crawl_init st.
Proof. apply scrape_page_steps. Qed.

(** The log and the document list only grow. *)
Lemma steps_prefix st st' :
  steps st st' ->
  goto_log st `prefix_of` goto_log st'
  /\ documents st `prefix_of` documents st'.
Proof.
  induction 1 as [st|st st1 st2 Hstep _ [IHl IHd]]; [done|].
  assert (goto_log st `prefix_of` goto_log st1
          /\ documents st `prefix_of` documents st1) as [Hl Hd].
  { destruct Hstep; simpl; split;
      try done; by apply prefix_app_r. }
  split; by etrans.
Qed.

(** Every document is the document of a fetched page, and the documents
    come in the order of the fetches. *)
Lemma steps_documents st st' :
  steps st st' ->
  NoDup (goto_log st) ->
  (forall u, u ∈ goto_log st <-> u ∈ visited_urls st) ->
  sublist (doc_url <$> documents st) (goto_log st) ->
  Forall (fun doc => exists soup depth, goto (doc_url doc) = Some soup
            /\ doc = page_document (doc_url doc) depth soup) (documents st) ->
  NoDup (goto_log st')
  /\ (forall u, u ∈ goto_log st' <-> u ∈ visited_urls st')
  /\ sublist (doc_url <$> documents st') (goto_log st')
  /\ Forall (fun doc => exists soup depth, goto (doc_url doc) = Some soup
               /\ doc = page_document (doc_url doc) depth soup) (documents st').
Proof.
  induction 1 as [st|st st1 st2 Hstep _ IH]; [done|].
  intros Hnd Hvis Hsub Hall. apply IH.
  - assert (Hfresh : forall u, u ∉ visited_urls st -> NoDup (goto_log st ++ [u])).
    { intros u Hu. apply NoDup_app. split_and!; [done| |apply NoDup_singleton].
      intros x Hx Hx'. apply list_elem_of_singleton in Hx' as ->.
      by apply Hu, Hvis. }
    destruct Hstep; simpl; by apply Hfresh.
  - intros u. destruct Hstep; simpl;
      rewrite elem_of_app, elem_of_union, Hvis,
        list_elem_of_singleton, elem_of_singleton; done.
  - destruct Hstep as [| |page_url depth soup doc st0 _ _ He]; simpl.
    + by apply sublist_inserts_r.
    + by apply sublist_inserts_r.
    + apply extract_Some in He as [_ ->]. rewrite fmap_app. simpl.
      by apply sublist_app.
  - destruct Hstep as [| |page_url depth soup doc st0 _ Hg He]; simpl;
      [done|done|].
    apply extract_Some in He as [_ ->].
    apply Forall_app. split; [done|]. apply Forall_singleton. simpl. eauto.
Qed.

Lemma crawl_init_steps seed st :
  crawl goto max_links max_depth seed = Some st ->
  NoDup (goto_log st)
  /\ (forall u, u ∈ goto_log st <-> u ∈ visited_urls st)
  /\ sublist (doc_url <$> documents st) (goto_log st)
  /\ Forall (fun doc => exists soup depth, goto (doc_url doc) = Some soup
               /\ doc = page_document (doc_url doc) depth soup) (documents st).
Proof.
  intros Hst%crawl_steps. apply (steps_documents _ _ Hst); simpl.
  - apply NoDup_nil_2.
  - intros u. set_solver.
  - constructor.
  - constructor.
Qed.

(** X3: every document a crawl returns is the document of a page it
    fetched, built from that page's cleaned text; the documents come in
    the order of the fetches and no two of them have the same URL. *)
Theorem crawl_documents_are_fetched_pages seed :
  exists st, crawl goto max_links max_depth seed = Some st
    /\ sublist (doc_url <$> documents st) (goto_log st)
    /\ NoDup (doc_url <$> documents st)
    /\ forall doc, doc ∈ documents st ->
         exists soup depth, goto (doc_url doc) = Some soup
           /\ doc = page_document (doc_url doc) depth soup
           /\ doc_content doc = cleaned_text soup
           /\ doc_name doc = default (doc_url doc) (soup_title soup).
Proof.
  destruct (crawl_total goto max_links max_depth seed) as [st Hst].
  destruct (crawl_init_steps seed st Hst) as (Hnd & _ & Hsub & Hall).
  exists st. split_and!; [done|done|by eapply sublist_NoDup|].
  intros doc Hdoc. rewrite Forall_forall in Hall.
  destruct (Hall doc Hdoc) as (soup & depth & Hg & Hd).
  exists soup, depth. split_and!; [done|done|by rewrite Hd|by rewrite Hd].
Qed.

(** *** The number of fetches *)

Lemma follow_links_log_bound recur page_url links st st' B :
  (forall v s s', recur v s = Some s' ->
     length (goto_log s') <= length (goto_log s) + B) ->
  follow_links recur page_url links st = Some st' ->
  length (goto_log st') <= length (goto_log st) + length links * B.
Proof.
  intros Hrec. revert st.
  induction links as [|href links IH]; intros st; simpl.
  - intros [= <-]. lia.
  - destruct (link_action page_url href) as [|v|].
    + intros H%IH. lia.
    + destruct (recur v st) as [s1|] eqn:Hr; [|done].
      intros H%IH. apply Hrec in Hr. lia.
    + intros [= <-]. lia.
Qed.

Lemma slice_to_length {A} (l : list A) n :
  (0 <= n)%Z -> length (PyStr.slice_to l n) <= Z.to_nat n.
Proof.
  intros Hn. unfold PyStr.slice_to.
  destruct (0 <=? n)%Z eqn:Hle; [|lia]. rewrite length_take. lia.
Qed.

Lemma scrape_page_log_bound fuel page_url depth st st' :
  (0 <= max_links)%Z ->
  scrape fuel page_url depth st = Some st' ->
  length (goto_log st')
  <= length (goto_log st)
     + (if bool_decide (depth <= max_depth)%Z
        then fetch_bound (Z.to_nat max_links) (Z.to_nat (max_depth - depth))
        else 0).
Proof.
  intros Hm. revert page_url depth st st'.
  induction fuel as [|fuel IH]; intros page_url depth st st'; [done|].
  cbn [scrape_page].
  destruct (decide (depth > max_depth)%Z) as [Hgt|Hd].
  { rewrite (bool_decide_eq_true_2 (depth > max_depth)%Z) by done.
    intros [= <-]. lia. }
  rewrite (bool_decide_eq_false_2 (depth > max_depth)%Z) by done.
  rewrite (bool_decide_eq_true_2 (depth <= max_depth)%Z) by lia.
  cbn [orb].
  assert (Hpos : 1 <= fetch_bound (Z.to_nat max_links)
                        (Z.to_nat (max_depth - depth))).
  { destruct (Z.to_nat (max_depth - depth)); simpl; lia. }
  case_bool_decide as Hv; [intros [= <-]; lia|].
  destruct (goto page_url) as [soup|].
  2: { intros [= <-]. simpl. rewrite length_app. simpl. lia. }
  set (st1 := match extract page_url depth soup with
              | Some doc => emit doc (mark_visited page_url st)
              | None => mark_visited page_url st
              end).
  assert (Hst1 : length (goto_log st1) = S (length (goto_log st))).
  { subst st1. destruct (extract page_url depth soup); simpl;
      rewrite length_app; simpl; lia. }
  fold st1.
  destruct (decide (depth < max_depth)%Z) as [Hlt|Hge].
  2: { rewrite (bool_decide_eq_false_2 (depth < max_depth)%Z) by done.
       cbn [andb]. intros [= <-]. lia. }
  destruct (_ && _); [|intros [= <-]; lia].
  intros Hlinks.
  eapply follow_links_log_bound in Hlinks;
    [|intros v s s' Hs; exact (IH v (depth + 1)%Z s s' Hs)].
  rewrite (bool_decide_eq_true_2 (depth + 1 <= max_depth)%Z) in Hlinks by lia.
  pose proof (slice_to_length (soup_hrefs soup) max_links Hm) as Hlen.
  replace (Z.to_nat (max_depth - depth))
    with (S (Z.to_nat (max_depth - (depth + 1)))) by lia.
  simpl. rewrite Hst1 in Hlinks.
  assert (length (PyStr.slice_to (soup_hrefs soup) max_links)
          * fetch_bound (Z.to_nat max_links) (Z.to_nat (max_depth - (depth + 1)))
          <= Z.to_nat max_links
             * fetch_bound (Z.to_nat max_links)
                 (Z.to_nat (max_depth - (depth + 1))))
    by (apply Nat.mul_le_mono_r; lia).
  lia.
Qed.

(** X4: with at most [max_links] links followed per page and [max_depth]
    levels below the seed, a crawl fetches at most
    [1 + max_links + ... + max_links ^ max_depth] pages, and returns at
    most that many documents. *)
Theorem crawl_fetch_bound seed :
  (0 <= max_links)%Z -> (0 <= max_depth)%Z ->
  exists st, crawl goto max_links max_depth seed = Some st
    /\ length (goto_log st)
       <= fetch_bound (Z.to_nat max_links) (Z.to_nat max_depth)
    /\ length (documents st) <= length (goto_log st).
Proof.
  intros Hm Hd.
  destruct (crawl_total goto max_links max_depth seed) as [st Hst].
  exists st. split_and!; [done| |].
  - pose proof (scrape_page_log_bound _ _ _ _ _ Hm Hst) as Hb.
    rewrite bool_decide_eq_true_2 in Hb by lia.
    rewrite Z.sub_0_r in Hb. simpl in Hb. lia.
  - destruct (crawl_init_steps seed st Hst) as (_ & _ & Hsub & _).
    apply sublist_length in Hsub. by rewrite length_fmap in Hsub.
Qed.

(** X5: a crawl with a negative depth limit fetches nothing; a crawl that
    may follow no link ([max_links] at most 0) fetches the seed and
    nothing else, whatever the depth limit. *)
Theorem crawl_without_links seed :
  ((max_depth < 0)%Z ->
   crawl goto max_links max_depth seed = Some crawl_init)
  /\ ((0 <= max_depth)%Z -> (max_links <= 0)%Z ->
      exists st, crawl goto max_links max_depth seed = Some st
        /\ goto_log st = [seed]
        /\ documents st
           = match goto seed with
             | Some soup =>
                 match extract seed 0 soup with
                 | Some doc => [doc]
                 | None => []
                 end
             | None => []
             end).
Proof.
  split.
  - intros Hneg. unfold crawl, crawl_fuel. cbn [scrape_page].
    by rewrite (bool_decide_eq_true_2 (0 > max_depth)%Z) by lia.
  - intros Hd Hm. unfold crawl, crawl_fuel. cbn [scrape_page].
    rewrite (bool_decide_eq_false_2 (0 > max_depth)%Z) by lia.
    rewrite (bool_decide_eq_false_2 (seed ∈ _)) by (simpl; set_solver).
    cbn [orb]. destruct (goto seed) as [soup|]; [|by eexists].
    destruct (extract seed 0 soup) as [doc|].
    + rewrite (bool_decide_eq_false_2 (_ < max_links * 2)%Z) by (simpl; lia).
      rewrite andb_false_r. by eexists.
    + rewrite (bool_decide_eq_false_2 (_ < max_links * 2)%Z) by (simpl; lia).
      rewrite andb_false_r. by eexists.
Qed.

(** X6: whenever the depth limit is not negative the seed is the first
    page fetched; if its fetch fails, the crawl returns no document and
    fetches nothing else. *)
Theorem crawl_starts_at_seed seed :
  (0 <= max_depth)%Z ->
  exists st, crawl goto max_links max_depth seed = Some st
    /\ head (goto_log st) = Some seed
    /\ (goto seed = None -> documents st = [] /\ goto_log st = [seed]).
Proof.
  intros Hd.
  destruct (crawl_total goto max_links max_depth seed) as [st Hst].
  exists st. split; [done|]. revert Hst.
  unfold crawl, crawl_fuel. cbn [scrape_page].
  rewrite (bool_decide_eq_false_2 (0 > max_depth)%Z) by lia.
  rewrite (bool_decide_eq_false_2 (seed ∈ _)) by (simpl; set_solver).
  cbn [orb]. destruct (goto seed) as [soup|].
  2: { intros [= <-]. by split. }
  set (st1 := match extract seed 0 soup with
              | Some doc => emit doc (mark_visited seed crawl_init)
              | None => mark_visited seed crawl_init
              end).
  assert (Hst1 : goto_log st1 = [seed])
    by (subst st1; by destruct (extract seed 0 soup)).
  intros Hrest. split; [|done].
  assert (Hpre : goto_log st1 `prefix_of` goto_log st).
  { destruct (_ && _).
    - eapply follow_links_steps in Hrest.
      + by apply steps_prefix in Hrest as [? _].
      + intros v s s'. apply scrape_page_steps.
    - by injection Hrest as <-. }
  rewrite Hst1 in Hpre. destruct Hpre as [k ->]. done.
Qed.

End CrawlSteps.

(** The two-page site, crawled with the limits the endpoint uses. *)
Lemma crawl_fetch_bound_witness :
  ((0 <= 2)%Z /\ (0 <= 3)%Z)
  /\ exists st, crawl Scenario.site 2 3 Scenario.seed = Some st
       /\ length (goto_log st) <= fetch_bound (Z.to_nat 2) (Z.to_nat 3)
       /\ length (documents st) <= length (goto_log st).
Proof.
  split; [split; lia|].
  apply (crawl_fetch_bound Scenario.site 2 3 Scenario.seed); lia.
Defined.

(** The two-page site crawled with no link allowed, and with a negative
    depth limit. *)
Lemma crawl_without_links_witness :
  crawl Scenario.site 2 (-1) Scenario.seed = Some crawl_init
  /\ exists st, crawl Scenario.site 0 3 Scenario.seed = Some st
       /\ goto_log st = [Scenario.seed]
       /\ documents st = [page_document Scenario.seed 0 Scenario.seed_soup].
Proof.
  split.
  - apply (proj1 (crawl_without_links Scenario.site 2 (-1) Scenario.seed)). lia.
  - apply (proj2 (crawl_without_links Scenario.site 0 3 Scenario.seed)); lia.
Defined.

(** A site whose seed cannot be rendered. *)
Lemma crawl_starts_at_seed_witness :
  (0 <= 3)%Z
  /\ exists st, crawl (fun _ => None) 2 3 Scenario.seed = Some st
       /\ head (goto_log st) = Some Scenario.seed
       /\ ((fun _ : string => @None Soup) Scenario.seed = None ->
           documents st = [] /\ goto_log st = [Scenario.seed]).
Proof.
  split; [lia|].
  apply (crawl_starts_at_seed (fun _ => None) 2 3 Scenario.seed). lia.
Defined.

(** ** The registry across the endpoints *)

Section RegistryFacts.
Context {St : Type}.
Variable client : StoreClient St.
Variable web : Web.

(** What a call of [initialize_knowledge] that passes validation does,
    in terms of the documents it settles on. *)
Lemma initialize_knowledge_valid request_url g s :
  agent g = true ->
  PyStr.strip request_url <> EmptyString ->
  valid_scheme (PyStr.strip request_url) = true ->
  exists (docs : list IngestDoc) (use_browser : bool),
    let url := PyStr.strip request_url in
    let called :=
      if use_browser then [BrowserScraper]
      else [BrowserScraper; RegularReader] in
    selected_documents web url = Some (docs, use_browser)
    /\ initialize_knowledge client web request_url g s
       = match docs with
         | [] => Some (HTTPException 400 no_content_detail, g, s, called)
         | _ :: _ =>
             match add_documents client url use_browser docs s with
             | (s', Some e) =>
                 Some (HTTPException 500
                         ("Error loading knowledge base: " +:+ e),
                       g, s', called)
             | (s', None) =>
                 let loaded_urls' :=
                   if bool_decide (url ∈ loaded_urls g) then loaded_urls g
                   else loaded_urls g ++ [url] in
                 Some (Response
                         {| init_success := true;
                            init_message :=
                              {| msg_url := url;
                                 msg_document_count := length docs;
                                 msg_scraper :=
                                   if use_browser then "browser" else "regular";
                                 msg_warning :=
                                   if use_browser then EmptyString
                                   else warning_for docs |};
                            init_loaded_urls := loaded_urls' |},
                       {| agent := true; knowledge_loaded := true;
                          loaded_urls := loaded_urls' |},
                       s', called)
             end
         end.
Proof.
  intros Hagent Hne Hvalid. cbv zeta.
  unfold initialize_knowledge, selected_documents.
  rewrite Hagent, (bool_decide_eq_false_2 _ Hne), Hvalid. cbn [negb].
  destruct (scrape_with_browser_total (web_browser web)
              (PyStr.strip request_url) 2 3) as [r ->].
  cbn [mbind option_bind].
  destruct r as [e|[|doc docs]].
  - rewrite (bool_decide_eq_true_2 (@nil Document = [])) by done. cbn [negb].
    do 2 eexists. split; [reflexivity|]. reflexivity.
  - rewrite (bool_decide_eq_true_2 (@nil Document = [])) by done. cbn [negb].
    do 2 eexists. split; [reflexivity|]. reflexivity.
  - rewrite (bool_decide_eq_false_2 (doc :: docs = [])) by done. cbn [negb].
    do 2 eexists. split; [reflexivity|]. reflexivity.
Qed.

Lemma initialize_knowledge_invalid request_url g s :
  agent g = false \/ PyStr.strip request_url = EmptyString
  \/ valid_scheme (PyStr.strip request_url) = false ->
  exists status detail,
    initialize_knowledge client web request_url g s
    = Some (HTTPException status detail, g, s, [])
    /\ status <> 500%Z.
Proof.
  unfold initialize_knowledge. intros Hbad.
  destruct (agent g); cbn [negb]; [|by do 2 eexists].
  case_bool_decide as Hne; [by do 2 eexists|].
  destruct (valid_scheme _); cbn [negb]; [|by do 2 eexists].
  by destruct Hbad as [?|[?|?]].
Qed.

Lemma initialize_knowledge_cases request_url g :
  (agent g = false \/ PyStr.strip request_url = EmptyString
   \/ valid_scheme (PyStr.strip request_url) = false)
  \/ (agent g = true /\ PyStr.strip request_url <> EmptyString
      /\ valid_scheme (PyStr.strip request_url) = true).
Proof.
  destruct (agent g); [|by left; left].
  destruct (decide (PyStr.strip request_url = EmptyString)); [by left; right; left|].
  destruct (valid_scheme _); [by right|by left; right; right].
Qed.

(** An error of [initialize_knowledge] leaves the globals as they were. *)
Lemma endpoint_errors_keep_registry_aux request_url g s status detail g' s'
    called :
  initialize_knowledge client web request_url g s
    = Some (HTTPException status detail, g', s', called) ->
  g' = g /\ (status <> 500%Z -> s' = s).
Proof.
  destruct (initialize_knowledge_cases request_url g)
    as [Hbad|(Hagent & Hne & Hvalid)].
  - destruct (initialize_knowledge_invalid _ _ s Hbad) as (st & d & -> & _).
    by intros [= _ _ <- <- _].
  - destruct (initialize_knowledge_valid _ _ s Hagent Hne Hvalid)
      as (docs & ub & _ & ->).
    destruct docs as [|doc docs]; [by intros [= _ _ <- <- _]|].
    destruct (add_documents _ _ _ _ _) as [s1 [e|]]; [|done].
    by intros [= <- _ <- _ _].
Qed.

(** X7: whatever error [initialize_knowledge] or [clear_knowledge_base]
    answers with, the registry and the flag are those it was called with;
    an error of [initialize_knowledge] other than a 500 leaves the store
    untouched as well. *)
Theorem endpoint_errors_keep_registry fuel request_url g s :
  (forall status detail g' s' called,
     initialize_knowledge client web request_url g s
       = Some (HTTPException status detail, g', s', called) ->
     g' = g /\ (status <> 500%Z -> s' = s))
  /\ (forall status detail g' s' deletes,
        clear_knowledge_base client fuel g s
          = Some (HTTPException status detail, g', s', deletes) ->
        g' = g).
Proof.
  split.
  - intros status detail g' s' called.
    apply endpoint_errors_keep_registry_aux.
  - intros status detail g' s' deletes. unfold clear_knowledge_base.
    destruct (clear_scan _ _ _ _ _ _) as [fin|]; [|done].
    cbn [mbind option_bind].
    destruct (scan_result fin) as [e|[|i ids]]; [by intros [= _ _ <- _ _]|done|].
    destruct (delete client s (i :: ids)); [by intros [= _ _ <- _ _]|done].
Qed.

Lemma initialize_success_effects request_url g s r g' s' called :
  initialize_knowledge client web request_url g s
    = Some (Response r, g', s', called) ->
  let url := PyStr.strip request_url in
  knowledge_loaded g' = true
  /\ agent g' = agent g
  /\ loaded_urls g'
     = (if bool_decide (url ∈ loaded_urls g) then loaded_urls g
        else loaded_urls g ++ [url])
  /\ url ∈ loaded_urls g'
  /\ init_loaded_urls r = loaded_urls g'
  /\ msg_url (init_message r) = url
  /\ 1 <= msg_document_count (init_message r)
  /\ (msg_scraper (init_message r) = "browser" <-> called = [BrowserScraper])
  /\ (msg_scraper (init_message r) = "browser" ->
      msg_warning (init_message r) = EmptyString).
Proof.
  intros Hinit url.
  destruct (initialize_knowledge_cases request_url g)
    as [Hbad|(Hagent & Hne & Hvalid)].
  { destruct (initialize_knowledge_invalid _ _ s Hbad) as (st & d & Heq & _).
    rewrite Heq in Hinit. done. }
  destruct (initialize_knowledge_valid _ _ s Hagent Hne Hvalid)
    as (docs & ub & _ & Heq).
  rewrite Heq in Hinit. clear Heq. fold url in Hinit.
  destruct docs as [|doc docs]; [done|].
  destruct (add_documents _ _ _ _ _) as [s1 [e|]]; [done|].
  injection Hinit as <- <- _ <-. cbn.
  split_and!; try done.
  - case_bool_decide as Hin; [done|]. apply elem_of_app. right. left.
  - lia.
  - destruct ub; split; done.
  - by destruct ub.
Qed.

(** X8: a successful [initialize_knowledge] sets the flag, reports at
    least one document, keeps the registered URLs in their order and adds
    the stripped URL at the end unless it is registered already; the
    response lists the registry as it is after the call.  A warning only
    comes with documents of the regular reader. *)
Theorem initialize_success_registers_url request_url g s r g' s' called :
  initialize_knowledge client web request_url g s
    = Some (Response r, g', s', called) ->
  let url := PyStr.strip request_url in
  knowledge_loaded g' = true
  /\ agent g' = agent g
  /\ loaded_urls g'
     = (if bool_decide (url ∈ loaded_urls g) then loaded_urls g
        else loaded_urls g ++ [url])
  /\ url ∈ loaded_urls g'
  /\ init_loaded_urls r = loaded_urls g'
  /\ msg_url (init_message r) = url
  /\ 1 <= msg_document_count (init_message r)
  /\ (msg_scraper (init_message r) = "browser" <-> called = [BrowserScraper])
  /\ (msg_scraper (init_message r) = "browser" ->
      msg_warning (init_message r) = EmptyString).
Proof. apply initialize_success_effects. Qed.

Lemma list_remove_first_filter url l :
  NoDup l -> list_remove_first url l = filter (fun x => x <> url) l.
Proof.
  induction 1 as [|x l Hx Hnd IH]; simpl; [done|].
  case_bool_decide as Heq.
  - subst x. rewrite filter_cons_False by (intros H; by apply H).
    symmetry. apply filter_all. intros y Hy ->. done.
  - rewrite filter_cons_True by done. by rewrite IH.
Qed.

Lemma remove_url_success fuel request_url g s r g' s' :
  remove_url client fuel request_url g s = Some (Response r, g', s') ->
  let url := PyStr.strip request_url in
  url ∈ loaded_urls g
  /\ loaded_urls g' = list_remove_first url (loaded_urls g)
  /\ rm_remaining_urls r = loaded_urls g'
  /\ agent g' = agent g
  /\ knowledge_loaded g'
     = (if bool_decide (loaded_urls g' = []) then false else knowledge_loaded g).
Proof.
  unfold remove_url. case_bool_decide; [done|].
  case_bool_decide as Hin; cbn [negb]; [|done].
  destruct (remove_scan _ _ _ _ _ _ _) as [fin|]; [|done].
  cbn [mbind option_bind]. destruct (scan_result fin); [done|].
  intros [= <- <- _]. cbn. split_and!; try done.
  destruct (list_remove_first _ _); done.
Qed.

(** X9: the registry never holds a URL twice and the flag is true exactly
    when the registry is not empty: this holds when the module is loaded
    and after start-up, and each of the three endpoints keeps it,
    whatever its outcome. *)
Theorem registry_ok_kept fuel request_url g s :
  registry_ok globals_init
  /\ (registry_ok g ->
      registry_ok (startup_event g)
      /\ (forall res g' s' called,
            initialize_knowledge client web request_url g s
              = Some (res, g', s', called) -> registry_ok g')
      /\ (forall res g' s',
            remove_url client fuel request_url g s = Some (res, g', s') ->
            registry_ok g')
      /\ (forall res g' s' deletes,
            clear_knowledge_base client fuel g s
              = Some (res, g', s', deletes) -> registry_ok g')).
Proof.
  split; [split; [apply NoDup_nil_2|done]|].
  intros [Hnd Hflag]. split_and!.
  - done.
  - intros [r|status detail] g' s' called Hinit.
    + pose proof (initialize_keeps_NoDup _ _ _ _ _ _ _ _ _ Hnd Hinit).
      apply initialize_success_effects in Hinit
        as (Hl & _ & _ & Hin & _).
      split; [done|]. split; [|done]. intros _ Hnil.
      rewrite Hnil in Hin. by apply elem_of_nil in Hin.
    + destruct (endpoint_errors_keep_registry_aux request_url g s
                  status detail g' s' called Hinit). by subst.
  - intros [r|status detail] g' s' Hrem.
    + apply remove_url_success in Hrem as (_ & Hl & _ & _ & Hk).
      split.
      * rewrite Hl, list_remove_first_filter by done. by apply NoDup_filter.
      * rewrite Hk. case_bool_decide as Hnil; [by split|].
        split; [done|]. intros _. apply Hflag. intros Hg.
        rewrite Hg in Hl. by simpl in Hl.
    + apply remove_url_exception_globals in Hrem as ->. by split.
  - intros res g' s' deletes. unfold clear_knowledge_base.
    destruct (clear_scan _ _ _ _ _ _) as [fin|]; [|done].
    cbn [mbind option_bind].
    assert (Hempty : registry_ok {| agent := agent g; knowledge_loaded := false;
                                    loaded_urls := [] |})
      by (split; [apply NoDup_nil_2|done]).
    destruct (scan_result fin) as [e|[|i ids]].
    + intros [= _ <- _ _]. by split.
    + by intros [= _ <- _ _].
    + destruct (delete client s (i :: ids)).
      * intros [= _ <- _ _]. by split.
      * by intros [= _ <- _ _].
Qed.

End RegistryFacts.

(** The dead site: the request fails with the no-content error and
    nothing changes. *)
Lemma endpoint_errors_keep_registry_witness :
  initialize_knowledge Stub.stuck Scenario.dead_web Scenario.seed
    Scenario.loaded tt
  = Some (HTTPException 400 no_content_detail, Scenario.loaded, tt,
          [BrowserScraper; RegularReader])
  /\ Scenario.loaded = Scenario.loaded /\ (400%Z <> 500%Z -> tt = tt).
Proof.
  assert (H : initialize_knowledge Stub.stuck Scenario.dead_web Scenario.seed
                Scenario.loaded tt
              = Some (HTTPException 400 no_content_detail, Scenario.loaded, tt,
                      [BrowserScraper; RegularReader])) by reflexivity.
  split; [exact H|].
  exact (proj1 (endpoint_errors_keep_registry Stub.stuck Scenario.dead_web 1
                  Scenario.seed Scenario.loaded tt) _ _ _ _ _ H).
Defined.

(** The two-page site, ingested into a store that accepts every write. *)
Lemma initialize_success_registers_url_witness :
  exists r g' called,
    initialize_knowledge Stub.stuck Scenario.web " https://example.com/ "
      Scenario.fresh tt = Some (Response r, g', tt, called)
    /\ knowledge_loaded g' = true
    /\ loaded_urls g' = [Scenario.seed]
    /\ msg_document_count (init_message r) = 2.
Proof.
  eexists _, _, _. 
  assert (H : initialize_knowledge Stub.stuck Scenario.web
                " https://example.com/ " Scenario.fresh tt
              = Some (Response
                        {| init_success := true;
                           init_message :=
                             {| msg_url := Scenario.seed;
                                msg_document_count := 2;
                                msg_scraper := "browser";
                                msg_warning := EmptyString |};
                           init_loaded_urls := [Scenario.seed] |},
                      {| agent := true; knowledge_loaded := true;
                         loaded_urls := [Scenario.seed] |}, tt,
                      [BrowserScraper])) by (vm_compute; reflexivity).
  split; [exact H|].
  pose proof (initialize_success_registers_url Stub.stuck Scenario.web
                _ _ _ _ _ _ _ H) as (Hk & _ & Hl & _).
  split_and!; [exact Hk|reflexivity|reflexivity].
Defined.

(** The registry after the two-page site was ingested from a fresh
    start. *)
Lemma registry_ok_kept_witness :
  registry_ok Scenario.fresh
  /\ registry_ok {| agent := true; knowledge_loaded := true;
                    loaded_urls := [Scenario.seed] |}.
Proof.
  assert (Hfresh : registry_ok Scenario.fresh).
  { split; [apply NoDup_nil_2|]. split; [discriminate|]. intros H. by destruct H. }
  split; [exact Hfresh|].
  destruct (proj2 (registry_ok_kept Stub.stuck Scenario.web 1
                     Scenario.seed Scenario.fresh tt) Hfresh)
    as (_ & Hinit & _).
  eapply Hinit. vm_compute. reflexivity.
Defined.

(** ** Whitespace around the request URL *)

Lemma rstrip_by_idemp p s :
  PyStr.rstrip_by p (PyStr.rstrip_by p s) = PyStr.rstrip_by p s.
Proof.
  induction s as [|c s IH]; [done|]. cbn [PyStr.rstrip_by].
  destruct (PyStr.rstrip_by p s) as [|e r] eqn:Hr.
  - destruct (p c) eqn:Hc; [done|]. cbn [PyStr.rstrip_by]. by rewrite Hc.
  - cbn [PyStr.rstrip_by]. cbn [PyStr.rstrip_by] in IH.
    destruct (PyStr.rstrip_by p r) as [|e' r'] eqn:Hr'.
    + destruct (p e) eqn:He; [done|]. by rewrite IH.
    + by rewrite IH.
Qed.

Lemma lstrip_by_fixed p s :
  (forall c, String.get 0 s = Some c -> p c = false) ->
  PyStr.lstrip_by p s = s.
Proof.
  destruct s as [|c s]; [done|]. intros H. simpl. by rewrite (H c).
Qed.

Lemma strip_idemp s : PyStr.strip (PyStr.strip s) = PyStr.strip s.
Proof.
  unfold PyStr.strip. rewrite lstrip_by_fixed; [apply rstrip_by_idemp|].
  intros c Hc. apply rstrip_by_get in Hc. by apply lstrip_by_head in Hc.
Qed.

(** X10: the endpoints that take a URL read it stripped: a request URL
    with whitespace around it is treated exactly as the bare URL, by
    [initialize_knowledge] and by [remove_url] alike, so a URL ingested
    with surrounding whitespace is removed by its bare form. *)
Theorem request_url_is_stripped {St} (client : StoreClient St) web fuel
    request_url g s :
  initialize_knowledge client web request_url g s
  = initialize_knowledge client web (PyStr.strip request_url) g s
  /\ remove_url client fuel request_url g s
     = remove_url client fuel (PyStr.strip request_url) g s.
Proof.
  unfold initialize_knowledge, remove_url. by rewrite !strip_idemp.
Qed.

(** ** Removal and the registry *)

Section RemovalFacts.
Context {St : Type}.
Variable client : StoreClient St.

(** X11: after a successful [remove_url] the URL is no longer registered:
    removing it again answers 404 and changes neither the registry nor
    the store, whatever the store still holds. *)
Theorem remove_url_twice fuel fuel' request_url g s r g' s' :
  NoDup (loaded_urls g) ->
  remove_url client fuel request_url g s = Some (Response r, g', s') ->
  remove_url client fuel' request_url g' s'
  = Some (HTTPException 404
            ("URL " +:+ PyStr.strip request_url +:+ " not found in loaded URLs"),
          g', s').
Proof.
  intros Hnd Hrem.
  pose proof (remove_url_drops_url _ _ _ _ _ _ _ _ Hnd Hrem) as [Hnot _].
  revert Hrem. unfold remove_url.
  case_bool_decide as Hne; [done|]. intros _.
  by rewrite (bool_decide_eq_false_2 _ Hnot).
Qed.

(** X12: a successful [remove_url] takes the URL out of the registry and
    keeps every other URL, in the same order; the response lists what is
    left, and the flag goes down exactly when nothing is left. *)
Theorem remove_url_keeps_other_urls fuel request_url g s r g' s' :
  registry_ok g ->
  remove_url client fuel request_url g s = Some (Response r, g', s') ->
  loaded_urls g'
  = filter (fun u => u <> PyStr.strip request_url) (loaded_urls g)
  /\ rm_remaining_urls r = loaded_urls g'
  /\ (forall u, u <> PyStr.strip request_url ->
        u ∈ loaded_urls g' <-> u ∈ loaded_urls g)
  /\ (knowledge_loaded g' = false <-> loaded_urls g' = []).
Proof.
  intros [Hnd Hflag] (Hin & Hl & Hr & _ & Hk)%remove_url_success.
  rewrite list_remove_first_filter in Hl by done.
  split_and!; [done|done| |].
  - intros u Hu. rewrite Hl, list_elem_of_filter. tauto.
  - rewrite Hk. case_bool_decide as Hnil; [done|].
    split; [|done]. intros Hfalse.
    assert (loaded_urls g <> []) as Hne%Hflag; [|congruence].
    intros Hg. rewrite Hg in Hin. by apply elem_of_nil in Hin.
Qed.

End RemovalFacts.

(** The seed, registered alone, removed from a store that accepts every
    call: a second removal is refused. *)
Lemma remove_url_twice_witness :
  NoDup (loaded_urls Scenario.loaded)
  /\ remove_url (Stub.paged []) 1 Scenario.seed Scenario.loaded []
     = Some (Response {| rm_success := true;
                         rm_message := {| rm_deleted_count := 0;
                                          rm_url := Scenario.seed |};
                         rm_remaining_urls := [] |},
             {| agent := true; knowledge_loaded := false; loaded_urls := [] |},
             [])
  /\ remove_url (Stub.paged []) 1 Scenario.seed
       {| agent := true; knowledge_loaded := false; loaded_urls := [] |} []
     = Some (HTTPException 404
               ("URL " +:+ PyStr.strip Scenario.seed
                +:+ " not found in loaded URLs"),
             {| agent := true; knowledge_loaded := false; loaded_urls := [] |},
             []).
Proof.
  assert (Hnd : NoDup (loaded_urls Scenario.loaded))
    by (apply NoDup_singleton).
  assert (H : remove_url (Stub.paged []) 1 Scenario.seed Scenario.loaded []
     = Some (Response {| rm_success := true;
                         rm_message := {| rm_deleted_count := 0;
                                          rm_url := Scenario.seed |};
                         rm_remaining_urls := [] |},
             {| agent := true; knowledge_loaded := false; loaded_urls := [] |},
             [])) by reflexivity.
  split_and!; [exact Hnd|exact H|].
  exact (remove_url_twice (Stub.paged []) 1 1 Scenario.seed Scenario.loaded []
           _ _ _ Hnd H).
Defined.

(** Two registered URLs, of which the first is removed. *)
Lemma remove_url_keeps_other_urls_witness :
  let g := {| agent := true; knowledge_loaded := true;
              loaded_urls := [Scenario.seed; "https://other.org/"] |} in
  registry_ok g
  /\ exists r g',
       remove_url (Stub.paged []) 1 Scenario.seed g [] = Some (Response r, g', [])
       /\ loaded_urls g' = ["https://other.org/"]
       /\ rm_remaining_urls r = loaded_urls g'
       /\ (knowledge_loaded g' = false <-> loaded_urls g' = []).
Proof.
  intros g.
  assert (Hok : registry_ok g).
  { split; [|split; [discriminate|done]].
    apply NoDup_cons. split; [|apply NoDup_singleton].
    intros Hin. apply list_elem_of_singleton in Hin. discriminate. }
  split; [exact Hok|]. eexists _, _.
  assert (H : remove_url (Stub.paged []) 1 Scenario.seed g []
     = Some (Response {| rm_success := true;
                         rm_message := {| rm_deleted_count := 0;
                                          rm_url := Scenario.seed |};
                         rm_remaining_urls := ["https://other.org/"] |},
             {| agent := true; knowledge_loaded := true;
                loaded_urls := ["https://other.org/"] |}, []))
    by reflexivity.
  split; [exact H|].
  pose proof (remove_url_keeps_other_urls (Stub.paged []) 1 Scenario.seed g []
                _ _ _ Hok H) as (_ & Hr & _ & Hk).
  split_and!; [reflexivity|exact Hr|exact Hk].
Defined.

(** ** Ingestion and removal on the reference store *)

Lemma fresh_id_above points p :
  p ∈ points -> point_id p < Qdrant.fresh_id points.
Proof.
  intros Hp. unfold Qdrant.fresh_id.
  destruct points as [|q points]; [by apply elem_of_nil in Hp|].
  assert (point_id p ∈ point_id <$> q :: points)
    by (apply list_elem_of_fmap; eauto).
  pose proof (max_list_elem_of_le _ _ H). lia.
Qed.

Lemma id_sorted_snoc points p :
  id_sorted points -> point_id p = Qdrant.fresh_id points ->
  id_sorted (points ++ [p]).
Proof.
  intros Hsorted Hid. apply StronglySorted_app_2; [|done|].
  - intros x y Hx Hy. apply list_elem_of_singleton in Hy as ->.
    rewrite Hid. by apply fresh_id_above.
  - repeat constructor.
Qed.

Lemma add_content_whole split s name text_content metadata :
  (0 < PyStr.len text_content <= Qdrant.chunk_size)%Z ->
  Qdrant.add_content split s name text_content metadata
  = inr (Some (default [] s ++
          [Qdrant.chunk_point name metadata (Qdrant.fresh_id (default [] s))
             text_content])).
Proof.
  intros Hlen. unfold Qdrant.add_content, Qdrant.chunks_of.
  rewrite bool_decide_eq_true_2 by done.
  cbn [imap]. by rewrite Nat.add_0_r.
Qed.

(** On the reference store the writing loop does not fail on documents
    whose texts are kept whole: it appends one point per document,
    findable under the URL the document carries. *)
Lemma qdrant_add_documents split url use_browser docs s :
  Forall stored_whole docs ->
  exists new,
    add_documents (Qdrant.client split) url use_browser docs s
    = (match docs with [] => s | _ :: _ => Some (default [] s ++ new) end, None)
    /\ Forall2 (fun p doc => point_url p = Some (MStr (in_url doc))) new docs
    /\ (id_sorted (default [] s) -> id_sorted (default [] s ++ new)).
Proof.
  intros Hwhole. revert s.
  induction Hwhole as [|doc docs Hdoc _ IH]; intros s.
  - exists []. split_and!; [done|constructor|by rewrite app_nil_r].
  - cbn [add_documents add_content Qdrant.client].
    rewrite add_content_whole by exact Hdoc.
    set (p0 := Qdrant.chunk_point _ _ _ _).
    destruct (IH (Some (default [] s ++ [p0]))) as (new & Heq & Hurls & Hsorted).
    exists (p0 :: new). rewrite Heq. split_and!.
    + f_equal. destruct docs; cbn [default from_option]; unfold id.
      * inversion Hurls. done.
      * by rewrite <- app_assoc.
    + constructor; [|done]. unfold point_url. simpl.
      rewrite lookup_insert_ne by done. by rewrite lookup_insert_eq.
    + intros Hs. cbn [default from_option] in Hsorted. unfold id in Hsorted.
      rewrite (assoc_L (++) _ [p0] new : default [] s ++ p0 :: new = _).
      apply Hsorted. by apply id_sorted_snoc.
Qed.

Lemma points_under_new url new docs :
  Forall2 (fun p doc => point_url p = Some (MStr (in_url doc))) new docs ->
  length (points_under url new)
  = length (filter (fun doc => in_url doc = url) docs).
Proof.
  unfold points_under.
  induction 1 as [|p doc new docs Hp _ IH]; [done|].
  destruct (decide (in_url doc = url)) as [Heq|Hne].
  - rewrite !filter_cons_True; [simpl; by rewrite IH|done|].
    unfold url_matches. rewrite Hp, Heq. by apply bool_decide_pack.
  - rewrite !filter_cons_False; [done|done|].
    unfold url_matches. rewrite Hp. intros H%bool_decide_unpack. congruence.
Qed.

(** X13: on the reference store, [remove_url] deletes the points stored
    under the URL and no other: it reports their number, no such point is
    left, and every other point is still there, in order. *)
Theorem qdrant_remove_url_exact split fuel request_url g points :
  PyStr.strip request_url <> EmptyString ->
  PyStr.strip request_url ∈ loaded_urls g ->
  id_sorted points -> length points < fuel ->
  exists r g' kept,
    remove_url (Qdrant.client split) fuel request_url g (Some points)
    = Some (Response r, g', Some kept)
    /\ rm_deleted_count (rm_message r)
       = length (points_under (PyStr.strip request_url) points)
    /\ kept = points_not_under (PyStr.strip request_url) points
    /\ points_under (PyStr.strip request_url) kept = []
    /\ (forall p, p ∈ points ->
          ~ url_matches (PyStr.strip request_url) p -> p ∈ kept)
    /\ sublist kept points.
Proof.
  intros Hne Hin Hsorted Hfuel.
  destruct (qdrant_remove_url split fuel request_url g points Hne Hin Hsorted Hfuel)
    as (r & g' & Heq & Hcount & _).
  exists r, g', (points_not_under (PyStr.strip request_url) points).
  split_and!; [done|done|done| | |].
  - unfold points_under, points_not_under. apply filter_none.
    intros p [Hp _]%list_elem_of_filter. done.
  - intros p Hp Hnot. by apply list_elem_of_filter.
  - apply sublist_filter.
Qed.

Section QdrantRoundTrip.
Variable web : Web.

Lemma selected_reader_documents url docs :
  selected_documents web url = Some (docs, false) ->
  Forall (fun doc => in_url doc = url) docs.
Proof.
  unfold selected_documents.
  destruct (_scrape_with_browser_sync _ _ _ _) as [[e|[|d ds]]|];
    cbn [mbind option_bind]; try done.
  all: intros [= <-]; destruct (async_read web url) as [e'|rds]; [constructor|];
    apply Forall_fmap, Forall_forall; done.
Qed.

(** X14: on the reference store, a successful ingestion of documents whose
    texts have 1 to 5000 characters, which the store keeps whole, touches
    no point that was there: it appends exactly as many points as it
    reports documents, each findable under the URL its document carries,
    and the collection stays ordered by id. *)
Theorem qdrant_initialize_appends split request_url g s docs use_browser
    r g' s' called :
  selected_documents web (PyStr.strip request_url) = Some (docs, use_browser) ->
  Forall stored_whole docs ->
  initialize_knowledge (Qdrant.client split) web request_url g s
    = Some (Response r, g', s', called) ->
  exists new,
    s' = Some (default [] s ++ new)
    /\ length new = msg_document_count (init_message r)
    /\ length new = length docs
    /\ Forall2 (fun p doc => point_url p = Some (MStr (in_url doc))) new docs
    /\ (id_sorted (default [] s) -> id_sorted (default [] s ++ new)).
Proof.
  intros Hsel Hwhole Hinit.
  destruct (initialize_knowledge_cases request_url g)
    as [Hbad|(Hagent & Hne & Hvalid)].
  { destruct (initialize_knowledge_invalid (Qdrant.client split) web _ _ s Hbad)
      as (st & d & Heq & _). rewrite Heq in Hinit. done. }
  destruct (initialize_knowledge_valid (Qdrant.client split) web _ _ s
              Hagent Hne Hvalid) as (docs' & ub & Hsel' & Heq).
  rewrite Hsel in Hsel'. injection Hsel' as <- <-.
  rewrite Heq in Hinit. clear Heq.
  destruct docs as [|doc docs]; [done|].
  destruct (qdrant_add_documents split (PyStr.strip request_url) use_browser
              (doc :: docs) s Hwhole) as (new & Hadd & Hurls & Hsorted).
  rewrite Hadd in Hinit. injection Hinit as <- _ <- _.
  exists new. split_and!; try done.
  - cbn. by apply Forall2_length in Hurls.
  - by apply Forall2_length in Hurls.
Qed.

(** X15: the round trip on the reference store, for documents whose texts
    have 1 to 5000 characters, which the store keeps whole.  When an
    ingestion of a URL is followed by its removal, the removal deletes
    the points that were stored under the URL before plus the ingested
    documents that carry the URL itself; for documents of the regular
    reader those are all of them, so on a store that held nothing under
    the URL the two counts agree. *)
Theorem qdrant_round_trip split fuel request_url g s docs use_browser :
  agent g = true ->
  PyStr.strip request_url <> EmptyString ->
  valid_scheme (PyStr.strip request_url) = true ->
  selected_documents web (PyStr.strip request_url) = Some (docs, use_browser) ->
  docs <> [] ->
  Forall stored_whole docs ->
  id_sorted (default [] s) ->
  length (default [] s) + length docs < fuel ->
  let url := PyStr.strip request_url in
  let carried := length (filter (fun doc => in_url doc = url) docs) in
  exists sources s2,
    round_trip (Qdrant.client split) web fuel request_url g s
    = Some (length docs,
            length (points_under url (default [] s)) + carried,
            sources, s2)
    /\ (use_browser = false -> carried = length docs).
Proof.
  intros Hagent Hne Hvalid Hsel Hdocs Hwhole Hsorted Hfuel url carried.
  destruct (initialize_knowledge_valid (Qdrant.client split) web _ _ s
              Hagent Hne Hvalid) as (docs' & ub' & Hsel' & Hinit).
  fold url in Hsel, Hsel', Hinit. rewrite Hsel in Hsel'.
  injection Hsel' as <- <-.
  destruct (qdrant_add_documents split url use_browser docs s Hwhole)
    as (new & Hadd & Hurls & Hs).
  rewrite Hadd in Hinit.
  destruct docs as [|doc docs]; [done|].
  cbv zeta in Hinit.
  set (g1 := {| agent := true; knowledge_loaded := true;
                loaded_urls :=
                  if bool_decide (url ∈ loaded_urls g) then loaded_urls g
                  else loaded_urls g ++ [url] |}) in Hinit.
  assert (Hin : url ∈ loaded_urls g1).
  { subst g1. cbn. case_bool_decide; [done|]. apply elem_of_app. right. left. }
  destruct (qdrant_remove_url split fuel request_url g1 (default [] s ++ new))
    as (r2 & g2 & Hrem & Hcount & _); [done|done|by apply Hs| |].
  { rewrite length_app. apply Forall2_length in Hurls. lia. }
  unfold round_trip. rewrite Hinit. cbn [mbind option_bind].
  rewrite Hrem. cbn [mbind option_bind].
  assert (Hc : length (points_under url (default [] s ++ new))
               = length (points_under url (default [] s)) + carried).
  { unfold points_under. rewrite filter_app, length_app. f_equal.
    exact (points_under_new _ _ _ Hurls). }
  do 2 eexists. split.
  - rewrite Hcount.
    change (filter (fun point =>
              Is_true (url_matches (PyStr.strip request_url) point))
              (default [] s ++ new))
      with (points_under url (default [] s ++ new)).
    rewrite Hc. reflexivity.
  - intros ->. subst carried.
    apply selected_reader_documents in Hsel.
    by rewrite filter_all by (by apply Forall_forall).
Qed.

End QdrantRoundTrip.

Lemma three_pages_sorted : id_sorted (concat Scenario.three_pages).
Proof. unfold id_sorted. repeat (constructor; simpl; try lia). Qed.

(** Five points, three of them under the seed URL. *)
Lemma qdrant_remove_url_exact_witness :
  (PyStr.strip Scenario.seed <> EmptyString
   /\ PyStr.strip Scenario.seed ∈ loaded_urls Scenario.loaded
   /\ id_sorted (concat Scenario.three_pages)
   /\ length (concat Scenario.three_pages) < 6)
  /\ exists r g' kept,
       remove_url (Qdrant.client Scenario.split) 6 Scenario.seed
         Scenario.loaded
         (Some (concat Scenario.three_pages))
       = Some (Response r, g', Some kept)
       /\ rm_deleted_count (rm_message r)
          = length (points_under (PyStr.strip Scenario.seed)
                      (concat Scenario.three_pages))
       /\ kept = points_not_under (PyStr.strip Scenario.seed)
                   (concat Scenario.three_pages)
       /\ points_under (PyStr.strip Scenario.seed) kept = []
       /\ (forall p, p ∈ concat Scenario.three_pages ->
             ~ url_matches (PyStr.strip Scenario.seed) p -> p ∈ kept)
       /\ sublist kept (concat Scenario.three_pages).
Proof.
  assert (Hne : PyStr.strip Scenario.seed <> EmptyString)
    by (vm_compute; discriminate).
  assert (Hin : PyStr.strip Scenario.seed ∈ loaded_urls Scenario.loaded)
    by (vm_compute; apply list_elem_of_here).
  assert (Hlen : length (concat Scenario.three_pages) < 6) by (simpl; lia).
  split; [by split_and!; try apply three_pages_sorted|].
  exact (qdrant_remove_url_exact Scenario.split 6 Scenario.seed Scenario.loaded
           (concat Scenario.three_pages) Hne Hin three_pages_sorted Hlen).
Defined.

(** The two-page site ingested into the store before its collection
    exists. *)
Lemma qdrant_initialize_appends_witness :
  let docs := [of_browser_doc (page_document Scenario.seed 0 Scenario.seed_soup);
               of_browser_doc
                 (page_document "https://example.com/about" 1
                    Scenario.about_soup)] in
  (selected_documents Scenario.web (PyStr.strip Scenario.seed)
     = Some (docs, true)
   /\ Forall stored_whole docs)
  /\ exists r g' s' called new,
       initialize_knowledge (Qdrant.client Scenario.split) Scenario.web
         Scenario.seed Scenario.fresh None = Some (Response r, g', s', called)
       /\ s' = Some (default [] None ++ new)
       /\ length new = msg_document_count (init_message r)
       /\ length new = length docs
       /\ Forall2 (fun p doc => point_url p = Some (MStr (in_url doc)))
            new docs
       /\ (id_sorted (default [] None) -> id_sorted (default [] None ++ new)).
Proof.
  intros docs.
  assert (Hsel : selected_documents Scenario.web (PyStr.strip Scenario.seed)
                 = Some (docs, true)) by (vm_compute; reflexivity).
  assert (Hwhole : Forall stored_whole docs).
  { repeat constructor; vm_compute; congruence. }
  split; [by split|].
  destruct (initialize_knowledge (Qdrant.client Scenario.split) Scenario.web
              Scenario.seed Scenario.fresh None)
    as [[[[[r|status detail] g'] s'] called]|]
    eqn:H; [|vm_compute in H; discriminate H..].
  destruct (qdrant_initialize_appends Scenario.web Scenario.split Scenario.seed
              Scenario.fresh None docs true r g' s' called Hsel Hwhole H)
    as (new & Hnew).
  exists r, g', s', called, new. split; [reflexivity|exact Hnew].
Defined.

(** The two documents of the regular reader, ingested into an empty store
    and removed again. *)
Lemma qdrant_round_trip_witness :
  let docs :=
    match async_read reader_web (PyStr.strip Scenario.seed) with
    | inl _ => []
    | inr regular_docs =>
        of_reader_doc (PyStr.strip Scenario.seed) <$> regular_docs
    end in
  (agent Scenario.fresh = true
   /\ PyStr.strip Scenario.seed <> EmptyString
   /\ valid_scheme (PyStr.strip Scenario.seed) = true
   /\ selected_documents reader_web (PyStr.strip Scenario.seed)
      = Some (docs, false)
   /\ docs <> []
   /\ Forall stored_whole docs
   /\ id_sorted (default [] None)
   /\ length (default [] (@None (list Point))) + length docs < 3)
  /\ exists sources s2,
       round_trip (Qdrant.client Scenario.split) reader_web 3 Scenario.seed
         Scenario.fresh None
       = Some (length docs,
               length (points_under (PyStr.strip Scenario.seed) (default [] None))
               + length (filter (fun doc =>
                           in_url doc = PyStr.strip Scenario.seed) docs),
               sources, s2)
       /\ (false = false ->
           length (filter (fun doc =>
                     in_url doc = PyStr.strip Scenario.seed) docs)
           = length docs).
Proof.
  intros docs.
  assert (H1 : agent Scenario.fresh = true) by reflexivity.
  assert (H2 : PyStr.strip Scenario.seed <> EmptyString)
    by (vm_compute; discriminate).
  assert (H3 : valid_scheme (PyStr.strip Scenario.seed) = true) by reflexivity.
  assert (H4 : selected_documents reader_web (PyStr.strip Scenario.seed)
               = Some (docs, false)) by reflexivity.
  assert (H5 : docs <> []) by (vm_compute; discriminate).
  assert (Hwhole : Forall stored_whole docs).
  { repeat constructor; vm_compute; congruence. }
  assert (H6 : id_sorted (default [] None)) by constructor.
  assert (H7 : length (default [] (@None (list Point))) + length docs < 3)
    by (vm_compute; lia).
  split; [by split_and!|].
  exact (qdrant_round_trip reader_web Scenario.split 3 Scenario.seed
           Scenario.fresh None docs false H1 H2 H3 H4 H5 Hwhole H6 H7).
Defined.

(** ** After a clear *)

(** X16: on the reference store holding records, [clear_knowledge_base]
    reports the number of points, empties the collection with a single
    delete and empties the registry; from then on the knowledge base
    cannot be browsed (although an empty collection exists) and no URL
    can be removed, until the next ingestion. *)
Theorem qdrant_clear_then_nothing_left split fuel g points :
  id_sorted points -> points <> [] -> length points < fuel ->
  exists g0,
    clear_knowledge_base (Qdrant.client split) fuel g (Some points)
    = Some (Response {| clr_success := true; clr_removed := length points |},
            g0, Some [], [point_id <$> points])
    /\ get_loaded_urls g0 = ([], 0)
    /\ (forall other_meta_data limit offset,
          get_knowledge_base (Qdrant.client split) qdrant_get_collection
            other_meta_data limit offset g0 (Some [])
          = HTTPException 400 not_loaded_detail)
    /\ (forall fuel' request_url, exists status detail,
          remove_url (Qdrant.client split) fuel' request_url g0 (Some [])
          = Some (HTTPException status detail, g0, Some [])
          /\ (status = 400%Z \/ status = 404%Z)).
Proof.
  intros Hsorted Hne Hfuel. eexists. split_and!.
  - by apply qdrant_clear_all.
  - done.
  - done.
  - intros fuel' request_url. unfold remove_url.
    case_bool_decide; [do 2 eexists; split; [done|by left]|].
    rewrite bool_decide_eq_false_2 by apply not_elem_of_nil.
    do 2 eexists. split; [done|by right].
Qed.

(** The five points of the three pages. *)
Lemma qdrant_clear_then_nothing_left_witness :
  (id_sorted (concat Scenario.three_pages)
   /\ concat Scenario.three_pages <> []
   /\ length (concat Scenario.three_pages) < 6)
  /\ exists g0,
       clear_knowledge_base (Qdrant.client Scenario.split) 6 Scenario.loaded
         (Some (concat Scenario.three_pages))
       = Some (Response {| clr_success := true;
                           clr_removed := length (concat Scenario.three_pages) |},
               g0, Some [], [point_id <$> concat Scenario.three_pages])
       /\ get_loaded_urls g0 = ([], 0)
       /\ (forall other_meta_data limit offset,
             get_knowledge_base (Qdrant.client Scenario.split)
               qdrant_get_collection other_meta_data limit offset g0 (Some [])
             = HTTPException 400 not_loaded_detail)
       /\ (forall fuel' request_url, exists status detail,
             remove_url (Qdrant.client Scenario.split) fuel' request_url g0
               (Some [])
             = Some (HTTPException status detail, g0, Some [])
             /\ (status = 400%Z \/ status = 404%Z)).
Proof.
  assert (Hne : concat Scenario.three_pages <> []) by discriminate.
  assert (Hlen : length (concat Scenario.three_pages) < 6) by (simpl; lia).
  split; [split_and!; [apply three_pages_sorted|exact Hne|exact Hlen]|].
  exact (qdrant_clear_then_nothing_left Scenario.split 6 Scenario.loaded
           (concat Scenario.three_pages) three_pages_sorted Hne Hlen).
Defined.

(** ** The deletes issued by [remove_url] *)

Lemma elem_of_concat {A} (x : A) (ls : list (list A)) :
  x ∈ concat ls <-> exists l, l ∈ ls /\ x ∈ l.
Proof.
  induction ls as [|l ls IH]; simpl.
  - split; [by intros ?%elem_of_nil|by intros (? & ?%elem_of_nil & _)].
  - rewrite elem_of_app, IH. split.
    + intros [?|(l' & ? & ?)]; [exists l; split; [left|done]|].
      exists l'. split; [by right|done].
    + intros (l' & [->|?]%elem_of_cons & ?); [by left|right; eauto].
Qed.

Section PagedDeletes.
Variable pages : list (list Point).
Variable url : string.
Hypothesis pages_nonempty : Forall (fun page => page <> []) pages.

Lemma paged_remove_scan_deletes fuel k offset s deleted_count seen :
  default 0 offset = k -> k < length pages -> length pages - k <= fuel ->
  exists fin,
    remove_scan (Stub.paged pages) fuel url s offset deleted_count seen = Some fin
    /\ scan_store fin = s ++ page_deletes url (drop k pages)
    /\ scan_result fin
       = inr (deleted_count + length (concat (page_deletes url (drop k pages)))).
Proof.
  revert k offset s deleted_count seen.
  induction fuel as [|fuel IH]; intros k offset s deleted_count seen Hk Hlt Hfuel;
    [lia|].
  destruct (lookup_lt_is_Some_2 pages k Hlt) as [page Hpage].
  assert (Hne : page <> []).
  { eapply Forall_lookup_1 in pages_nonempty; [|exact Hpage]. done. }
  rewrite (drop_S _ _ _ Hpage).
  cbn [remove_scan Stub.paged scroll]. unfold Stub.paged_scroll.
  rewrite Hk, Hpage. cbn [default from_option]. unfold id.
  destruct page as [|p ps]; [done|].
  unfold page_deletes. rewrite fmap_cons.
  fold (points_under url (p :: ps)).
  set (ids := point_id <$> points_under url (p :: ps)).
  assert (Hstep : exists s1 n1,
    match ids with
    | [] => inr (s, deleted_count)
    | _ :: _ =>
        match delete (Stub.paged pages) s ids with
        | inl e => inl e
        | inr s' => inr (s', deleted_count + length ids)
        end
    end = (inr (s1, n1) : string + list (list nat) * nat)
    /\ forall tl, s1 ++ filter (fun ids => ids <> []) tl
         = s ++ filter (fun ids => ids <> []) (ids :: tl)
    /\ forall tl, n1 + length (concat (filter (fun ids : list nat => ids <> []) tl))
         = deleted_count
           + length (concat (filter (fun ids => ids <> []) (ids :: tl)))).
  { clearbody ids. destruct ids as [|i ids].
    - exists s, deleted_count. split; [done|]. intros tl.
      rewrite filter_cons_False by (intros H; by apply H). split; [done|].
      intros tl'. by rewrite filter_cons_False by (intros H; by apply H).
    - exists (s ++ [i :: ids]), (deleted_count + length (i :: ids)).
      split; [done|]. intros tl. rewrite filter_cons_True by done.
      split; [by rewrite <- app_assoc|].
      intros tl'. rewrite filter_cons_True by done.
      cbn [concat]. rewrite length_app. lia. }
  destruct Hstep as (s1 & n1 & Hstep & Hrest).
  subst ids. rewrite Hstep.
  set (tl := (fun page => point_id <$> points_under url page)
               <$> drop (S k) pages).
  destruct (Hrest tl) as [Hs1 _]. destruct (Hrest tl) as [_ Hn1].
  specialize (Hn1 tl).
  case_bool_decide as Hnext.
  - destruct (IH (S k) (Some (S k)) s1 n1 (seen ++ p :: ps))
      as (fin & Hfin & Hstore & Hres); [done|lia|lia|].
    exists fin. split_and!; [exact Hfin| |].
    + rewrite Hstore. unfold page_deletes. fold tl. exact Hs1.
    + rewrite Hres. unfold page_deletes. fold tl. by rewrite Hn1.
  - eexists. split_and!; [reflexivity|..]; cbn [scan_store scan_result].
    + rewrite <- Hs1. subst tl. rewrite drop_ge by lia. simpl.
      by rewrite app_nil_r.
    + rewrite <- Hn1. subst tl. rewrite drop_ge by lia. simpl.
      by rewrite Nat.add_0_r.
Qed.

(** X17: on a store that returns its records page by page, [remove_url]
    calls [delete] once for each page that holds points under the URL,
    with the ids of exactly those points and never with an empty list;
    the count it reports is the number of ids it passed. *)
Theorem remove_url_deletes_matches_only request_url g s :
  url = PyStr.strip request_url -> url <> EmptyString ->
  url ∈ loaded_urls g ->
  exists r g',
    remove_url (Stub.paged pages) (S (length pages)) request_url g s
    = Some (Response r, g', s ++ page_deletes url pages)
    /\ rm_deleted_count (rm_message r)
       = length (concat (page_deletes url pages))
    /\ Forall (fun ids => ids <> []) (page_deletes url pages)
    /\ (forall i, i ∈ concat (page_deletes url pages) ->
          exists p, p ∈ concat pages /\ point_id p = i
            /\ url_matches url p).
Proof.
  intros Hurl Hne Hin. unfold remove_url. rewrite <- Hurl.
  rewrite (bool_decide_eq_false_2 _ Hne), (bool_decide_eq_true_2 _ Hin).
  cbn [negb].
  assert (Hscan : exists fin,
    remove_scan (Stub.paged pages) (S (length pages)) url s None 0 [] = Some fin
    /\ scan_store fin = s ++ page_deletes url pages
    /\ scan_result fin = inr (length (concat (page_deletes url pages)))).
  { destruct (decide (pages = [])) as [Hnil|Hcons].
    - rewrite Hnil. eexists. split_and!; [reflexivity|..]; simpl;
        [by rewrite app_nil_r|done].
    - assert (0 < length pages) by (destruct pages; [done|simpl; lia]).
      destruct (paged_remove_scan_deletes (S (length pages)) 0 None s 0 [])
        as (fin & Hfin & Hstore & Hres); [done|done|lia|].
      rewrite drop_0 in Hstore, Hres. by exists fin. }
  destruct Hscan as (fin & -> & Hstore & Hres).
  cbn [mbind option_bind]. rewrite Hres, Hstore.
  do 2 eexists. split_and!; [reflexivity|done| |].
  - unfold page_deletes. apply Forall_forall.
    intros ids [? _]%list_elem_of_filter. done.
  - intros i (ids & Hids & Hi)%elem_of_concat.
    unfold page_deletes in Hids.
    apply list_elem_of_filter in Hids as [_ Hids].
    apply list_elem_of_fmap in Hids as (page & -> & Hpage).
    apply list_elem_of_fmap in Hi as (p & -> & Hp).
    apply list_elem_of_filter in Hp as [Hm Hp].
    exists p. split_and!; [|done|done].
    apply elem_of_concat. eauto.
Qed.

End PagedDeletes.

(** The three pages: one delete per page, with the ids 1, 3 and 5. *)
Lemma remove_url_deletes_matches_only_witness :
  (Forall (fun page => page <> []) Scenario.three_pages
   /\ Scenario.seed = PyStr.strip Scenario.seed
   /\ Scenario.seed <> EmptyString
   /\ Scenario.seed ∈ loaded_urls Scenario.loaded)
  /\ page_deletes Scenario.seed Scenario.three_pages = [[1]; [3]; [5]]
  /\ exists r g',
       remove_url (Stub.paged Scenario.three_pages) 4 Scenario.seed
         Scenario.loaded []
       = Some (Response r, g',
               [] ++ page_deletes Scenario.seed Scenario.three_pages)
       /\ rm_deleted_count (rm_message r)
          = length (concat (page_deletes Scenario.seed Scenario.three_pages)).
Proof.
  assert (H1 : Forall (fun page : list Point => page <> [])
                 Scenario.three_pages)
    by (repeat constructor; discriminate).
  assert (H2 : Scenario.seed = PyStr.strip Scenario.seed) by reflexivity.
  assert (H3 : Scenario.seed <> EmptyString) by discriminate.
  assert (H4 : Scenario.seed ∈ loaded_urls Scenario.loaded)
    by apply list_elem_of_here.
  split; [by split_and!|]. split; [reflexivity|].
  destruct (remove_url_deletes_matches_only Scenario.three_pages Scenario.seed
              H1 Scenario.seed Scenario.loaded [] H2 H3 H4)
    as (r & g' & Heq & Hcount & _).
  exists r, g'. split; [exact Heq|exact Hcount].
Defined.

(** ** A write that fails during ingestion *)

Section PartialIngestion.
Context {St : Type}.
Variable client : StoreClient St.

Lemma add_documents_app url use_browser docs1 docs2 s s1 :
  add_documents client url use_browser docs1 s = (s1, None) ->
  add_documents client url use_browser (docs1 ++ docs2) s
  = add_documents client url use_browser docs2 s1.
Proof.
  revert s. induction docs1 as [|doc docs1 IH]; intros s; simpl.
  - by intros [= <-].
  - destruct (add_content _ _ _ _ _) as [e|s']; [done|]. apply IH.
Qed.

Lemma add_documents_failure url use_browser docs s s' e :
  add_documents client url use_browser docs s = (s', Some e) ->
  exists written doc rest,
    docs = written ++ doc :: rest
    /\ add_documents client url use_browser written s = (s', None)
    /\ add_content client s' (or_url (in_name doc) url) (in_content doc)
         (Some (ingest_metadata use_browser doc)) = inl e.
Proof.
  revert s. induction docs as [|doc docs IH]; intros s; simpl; [done|].
  destruct (add_content _ _ _ _ _) as [e'|s1] eqn:Hadd.
  - intros [= <- <-]. by exists [], doc, docs.
  - intros (written & doc' & rest & -> & Hw & Hfail)%IH.
    exists (doc :: written), doc', rest. split_and!; [done| |done].
    simpl. by rewrite Hadd.
Qed.

(** X18: ingestion is not atomic.  When [initialize_knowledge] answers
    500, a write was refused: the documents before it were written and
    stay in the store, the documents after it were not tried, and the
    URL is not registered. *)
Theorem initialize_stops_at_failed_write web request_url g s detail g' s'
    called :
  initialize_knowledge client web request_url g s
    = Some (HTTPException 500 detail, g', s', called) ->
  let url := PyStr.strip request_url in
  exists docs use_browser written doc rest e,
    selected_documents web url = Some (docs, use_browser)
    /\ docs = written ++ doc :: rest
    /\ add_documents client url use_browser written s = (s', None)
    /\ add_content client s' (or_url (in_name doc) url) (in_content doc)
         (Some (ingest_metadata use_browser doc)) = inl e
    /\ detail = "Error loading knowledge base: " +:+ e
    /\ g' = g.
Proof.
  intros Hinit url.
  destruct (initialize_knowledge_cases request_url g)
    as [Hbad|(Hagent & Hne & Hvalid)].
  { destruct (initialize_knowledge_invalid client web _ _ s Hbad)
      as (st & d & Heq & Hst). rewrite Heq in Hinit. congruence. }
  destruct (initialize_knowledge_valid client web _ _ s Hagent Hne Hvalid)
    as (docs & ub & Hsel & Heq).
  rewrite Heq in Hinit. clear Heq. fold url in Hinit, Hsel.
  destruct docs as [|doc0 docs]; [done|].
  destruct (add_documents client url ub (doc0 :: docs) s) as [s1 [e|]] eqn:Hadd;
    [|done].
  injection Hinit as <- <- <- _.
  apply add_documents_failure in Hadd
    as (written & doc & rest & Hdocs & Hw & Hfail).
  exists (doc0 :: docs), ub, written, doc, rest, e. by split_and!.
Qed.

End PartialIngestion.

(** The two-page site ingested into a store that accepts one write: the
    seed page is stored, the linked page is refused. *)
Lemma initialize_stops_at_failed_write_witness :
  initialize_knowledge one_write_store Scenario.web Scenario.seed
    Scenario.fresh 0
  = Some (HTTPException 500 "Error loading knowledge base: disk full",
          Scenario.fresh, 1, [BrowserScraper])
  /\ exists docs use_browser written doc rest e,
       selected_documents Scenario.web (PyStr.strip Scenario.seed)
         = Some (docs, use_browser)
       /\ docs = written ++ doc :: rest
       /\ add_documents one_write_store (PyStr.strip Scenario.seed)
            use_browser written 0 = (1, None)
       /\ add_content one_write_store 1
            (or_url (in_name doc) (PyStr.strip Scenario.seed)) (in_content doc)
            (Some (ingest_metadata use_browser doc)) = inl e
       /\ "Error loading knowledge base: disk full"
          = "Error loading knowledge base: " +:+ e
       /\ Scenario.fresh = Scenario.fresh.
Proof.
  assert (H : initialize_knowledge one_write_store Scenario.web Scenario.seed
                Scenario.fresh 0
              = Some (HTTPException 500 "Error loading knowledge base: disk full",
                      Scenario.fresh, 1, [BrowserScraper]))
    by (vm_compute; reflexivity).
  split; [exact H|].
  exact (initialize_stops_at_failed_write one_write_store Scenario.web
           Scenario.seed Scenario.fresh 0 _ _ _ _ H).
Defined.

(** ** Browsing the knowledge base *)





(** A payload with a list under [meta_data], behind a point that gives a
    valid chunk: the request ends with 500 and no chunk is returned. *)
Lemma get_knowledge_base_invalid_meta_data :
  get_knowledge_base (Qdrant.client Scenario.split) qdrant_get_collection
    list_meta_data 100 0 Scenario.loaded
    (Some [Scenario.rec 1 Scenario.seed; list_meta_point])
  = HTTPException 500
      ("Error retrieving knowledge base: " +:+ list_meta_error).
Proof. vm_compute. reflexivity. Qed.

(** ** The prompt of [chat] *)

Lemma string_app_assoc (a b c : string) : (a +:+ b) +:+ c = a +:+ b +:+ c.
Proof.
  induction a as [|x a IH]; [done|].
  change (String x ((a +:+ b) +:+ c) = String x (a +:+ b +:+ c)).
  by rewrite IH.
Qed.

Lemma concat_snoc_append sep parts last message :
  String.concat sep (parts ++ [last]) +:+ message
  = String.concat sep (parts ++ [last +:+ message]).
Proof.
  induction parts as [|part parts IH]; [done|].
  cbn [app String.concat].
  destruct (parts ++ [last]) as [|x xs] eqn:Hx; [by destruct parts|].
  destruct (parts ++ [last +:+ message]) as [|y ys] eqn:Hy;
    [by destruct parts|].
  by rewrite !string_app_assoc, IH.
Qed.

(** X20: when the agent exists and the message is not blank, [chat]
    calls the agent once, with a prompt that ends with the message as it
    was sent (not stripped) and is that message alone when there is no
    history; with a history the message follows the line
    [Current question:] directly.  The response carries what the agent
    returned, and an exception of the agent becomes a 500. *)
Theorem chat_prompt ag message history g :
  agent g = true -> PyStr.strip message <> EmptyString ->
  exists prompt,
    snd (chat ag message history g) = [prompt]
    /\ (history = [] -> prompt = message)
    /\ (history <> [] ->
        prompt
        = String.concat newline
            (["Previous conversation:"]
             ++ ((fun msg => role_label msg +:+ ": " +:+ msg_content msg)
                   <$> history)
             ++ [EmptyString; "Current question:" +:+ message]))
    /\ fst (chat ag message history g)
       = match arun ag prompt with
         | inl e => HTTPException 500 ("Error processing request: " +:+ e)
         | inr (WithContent None) =>
             HTTPException 500
               ("Error processing request: " +:+ validation_error ag)
         | inr (WithContent (Some text)) | inr (PlainStr text)
         | inr (OtherReply text) =>
             Response {| chat_response := text; chat_success := true |}
         end.
Proof.
  intros Hagent Hne. unfold chat.
  rewrite Hagent, (bool_decide_eq_false_2 _ Hne). cbn [negb snd fst].
  exists (full_message history message). split_and!; [done| | |].
  - by intros ->.
  - intros Hh. unfold full_message, context_parts.
    destruct history as [|m history]; [done|].
    set (lines := (fun msg => role_label msg +:+ ": " +:+ msg_content msg)
                    <$> m :: history).
    cbn [app].
    change ("Previous conversation:" :: lines ++ [EmptyString; "Current question:"])
      with (["Previous conversation:"] ++ lines
            ++ [EmptyString; "Current question:"]).
    replace (["Previous conversation:"] ++ lines
             ++ [EmptyString; "Current question:"])
      with ((["Previous conversation:"] ++ lines ++ [EmptyString])
            ++ ["Current question:"])
      by (by rewrite <- !app_assoc).
    replace ("Previous conversation:"
             :: lines ++ [EmptyString; "Current question:" +:+ message])
      with ((["Previous conversation:"] ++ lines ++ [EmptyString])
            ++ ["Current question:" +:+ message])
      by (by rewrite <- !app_assoc).
    rewrite <- concat_snoc_append.
    by destruct ((["Previous conversation:"] ++ lines ++ [EmptyString])
                 ++ ["Current question:"]).
  - destruct (arun ag _) as [e|[[text|]|text|text]]; done.
Qed.

(** ** The delete of [clear_knowledge_base] *)

(** X21: whatever the store does, [clear_knowledge_base] calls [delete]
    at most once and never with an empty list; when it succeeds, the
    count it reports is the number of ids it passed, the registry is
    empty and the flag is down. *)
Theorem clear_issues_at_most_one_delete {St} (client : StoreClient St)
    fuel g s res g' s' deletes :
  clear_knowledge_base client fuel g s = Some (res, g', s', deletes) ->
  length deletes <= 1
  /\ Forall (fun ids => ids <> []) deletes
  /\ forall r, res = Response r ->
       clr_removed r = length (concat deletes)
       /\ loaded_urls g' = [] /\ knowledge_loaded g' = false
       /\ agent g' = agent g.
Proof.
  unfold clear_knowledge_base.
  destruct (clear_scan _ _ _ _ _ _) as [fin|]; [|done].
  cbn [mbind option_bind].
  destruct (scan_result fin) as [e|[|i ids]].
  - intros [= <- _ _ <-]. split_and!; [simpl; lia|constructor|done].
  - intros [= <- <- _ <-]. split_and!; [simpl; lia|constructor|].
    by intros r [= <-].
  - destruct (delete client s (i :: ids)) as [e|s1].
    + intros [= <- _ _ <-]. split_and!; [done|by repeat constructor|done].
    + intros [= <- <- _ <-]. split_and!; [done|by repeat constructor|].
      intros r [= <-]. simpl. by rewrite app_nil_r.
Qed.

(** A question asked after one exchange. *)
Lemma chat_prompt_witness :
  let history := [ {| msg_role := "user"; msg_content := "Hi" |};
                   {| msg_role := "assistant"; msg_content := "Hello" |} ] in
  (agent Scenario.loaded = true /\ PyStr.strip " Why? " <> EmptyString)
  /\ snd (chat echo_agent " Why? " history Scenario.loaded)
     = [String.concat newline
          ["Previous conversation:"; "User: Hi"; "Assistant: Hello";
           EmptyString; "Current question: Why? "]]
  /\ exists prompt,
       snd (chat echo_agent " Why? " history Scenario.loaded) = [prompt]
       /\ fst (chat echo_agent " Why? " history Scenario.loaded)
          = Response {| chat_response := prompt; chat_success := true |}.
Proof.
  intros history.
  assert (H1 : agent Scenario.loaded = true) by reflexivity.
  assert (H2 : PyStr.strip " Why? " <> EmptyString)
    by (vm_compute; discriminate).
  split; [by split|]. split; [reflexivity|].
  destruct (chat_prompt echo_agent " Why? " history Scenario.loaded H1 H2)
    as (prompt & Hsent & _ & _ & Hres).
  exists prompt. split; [exact Hsent|exact Hres].
Defined.

(** The three pages cleared: one delete with the five ids. *)
Lemma clear_issues_at_most_one_delete_witness :
  clear_knowledge_base (Stub.paged Scenario.three_pages) 3 Scenario.loaded []
  = Some (Response {| clr_success := true; clr_removed := 5 |},
          {| agent := true; knowledge_loaded := false; loaded_urls := [] |},
          [[1; 2; 3; 4; 5]], [[1; 2; 3; 4; 5]])
  /\ length [[1; 2; 3; 4; 5]] <= 1
  /\ Forall (fun ids : list nat => ids <> []) [[1; 2; 3; 4; 5]].
Proof.
  assert (H : clear_knowledge_base (Stub.paged Scenario.three_pages) 3
                Scenario.loaded []
              = Some (Response {| clr_success := true; clr_removed := 5 |},
                      {| agent := true; knowledge_loaded := false;
                         loaded_urls := [] |},
                      [[1; 2; 3; 4; 5]], [[1; 2; 3; 4; 5]])) by reflexivity.
  split; [exact H|].
  destruct (clear_issues_at_most_one_delete _ _ _ _ _ _ _ _ H)
    as (Hlen & Hne & _).
  split; [exact Hlen|exact Hne].
Defined.

(** ** The URLs in the registry *)

Lemma list_remove_first_sublist url l : sublist (list_remove_first url l) l.
Proof.
  induction l as [|x l IH]; simpl; [done|].
  case_bool_decide; [by apply sublist_cons|by apply sublist_skip].
Qed.

Lemma clear_success_empties_registry {St} (client : StoreClient St)
    fuel g s res g' s' deletes :
  clear_knowledge_base client fuel g s = Some (res, g', s', deletes) ->
  forall r, res = Response r -> loaded_urls g' = [] /\ knowledge_loaded g' = false.
Proof.
  unfold clear_knowledge_base.
  destruct (clear_scan _ _ _ _ _ _) as [fin|]; [|done].
  cbn [mbind option_bind].
  destruct (scan_result fin) as [e|[|i ids]]; [by intros [= <- _ _ _]| |].
  - by intros [= _ <- _ _].
  - destruct (delete client s (i :: ids)); [by intros [= <- _ _ _]|].
    by intros [= _ <- _ _].
Qed.

(** X22: the registry only ever holds URLs that are stripped and start
    with [http://] or [https://]: each of the three endpoints keeps this,
    whatever its outcome. *)
Theorem registry_urls_valid_kept {St} (client : StoreClient St) web fuel
    request_url g s :
  registry_urls_valid g ->
  (forall res g' s' called,
     initialize_knowledge client web request_url g s
       = Some (res, g', s', called) -> registry_urls_valid g')
  /\ (forall res g' s',
        remove_url client fuel request_url g s = Some (res, g', s') ->
        registry_urls_valid g')
  /\ (forall res g' s' deletes,
        clear_knowledge_base client fuel g s = Some (res, g', s', deletes) ->
        registry_urls_valid g').
Proof.
  unfold registry_urls_valid. intros Hvalid. split_and!.
  - intros [r|status detail] g' s' called Hinit.
    + destruct (initialize_knowledge_cases request_url g)
        as [Hbad|(Hagent & Hne & Hscheme)].
      { destruct (initialize_knowledge_invalid client web _ _ s Hbad)
          as (st & d & Heq & _). congruence. }
      apply initialize_success_effects in Hinit as (_ & _ & -> & _).
      case_bool_decide; [done|]. apply Forall_app. split; [done|].
      apply Forall_singleton. split; [apply strip_idemp|done].
    + apply endpoint_errors_keep_registry_aux in Hinit as [-> _]. done.
  - intros [r|status detail] g' s' Hrem.
    + apply remove_url_success in Hrem as (_ & -> & _).
      rewrite Forall_forall in Hvalid |- *. intros u Hu. apply Hvalid.
      eapply elem_of_sublist; [exact Hu|apply list_remove_first_sublist].
    + by apply remove_url_exception_globals in Hrem as ->.
  - intros res g' s' deletes Hclear.
    destruct res as [r|status detail].
    + destruct (clear_success_empties_registry _ _ _ _ _ _ _ _ Hclear r)
        as [-> _]; [done|constructor].
    + unfold clear_knowledge_base in Hclear.
      destruct (clear_scan _ _ _ _ _ _) as [fin|]; [|done].
      cbn [mbind option_bind] in Hclear.
      destruct (scan_result fin) as [e|[|i ids]];
        [by simplify_eq|done|].
      destruct (delete client s (i :: ids)); [by simplify_eq|done].
Qed.

(** The registry after the two-page site was ingested from a fresh
    start. *)
Lemma registry_urls_valid_kept_witness :
  registry_urls_valid Scenario.fresh
  /\ registry_urls_valid {| agent := true; knowledge_loaded := true;
                            loaded_urls := [Scenario.seed] |}.
Proof.
  assert (Hfresh : registry_urls_valid Scenario.fresh) by constructor.
  split; [exact Hfresh|].
  destruct (registry_urls_valid_kept Stub.stuck Scenario.web 1
              " https://example.com/ " Scenario.fresh tt Hfresh)
    as (Hinit & _).
  eapply Hinit. vm_compute. reflexivity.
Defined.

(** The two-page site: the document of the seed page is the document of
    a fetched page. *)
Lemma crawl_documents_are_fetched_pages_witness :
  exists st, crawl Scenario.site 2 3 Scenario.seed = Some st
    /\ page_document Scenario.seed 0 Scenario.seed_soup ∈ documents st
    /\ exists soup depth,
         Scenario.site Scenario.seed = Some soup
         /\ page_document Scenario.seed 0 Scenario.seed_soup
            = page_document Scenario.seed depth soup.
Proof.
  destruct (crawl_documents_are_fetched_pages Scenario.site 2 3 Scenario.seed)
    as (st & Hst & _ & _ & Hall).
  assert (Hdocs : documents <$> crawl Scenario.site 2 3 Scenario.seed
                  = Some [page_document Scenario.seed 0 Scenario.seed_soup;
                          page_document "https://example.com/about" 1
                            Scenario.about_soup])
    by (vm_compute; reflexivity).
  rewrite Hst in Hdocs. injection Hdocs as Hdocs.
  assert (Hin : page_document Scenario.seed 0 Scenario.seed_soup ∈ documents st)
    by (rewrite Hdocs; apply list_elem_of_here).
  exists st. split; [exact Hst|]. split; [exact Hin|].
  destruct (Hall _ Hin) as (soup & depth & Hg & Hd & _).
  exists soup, depth. split; [exact Hg|exact Hd].
Defined.

(** ** The minimum-signal filter and what is stored *)

Lemma crawl_documents_long goto max_links max_depth seed st :
  crawl goto max_links max_depth seed = Some st ->
  forall doc, doc ∈ documents st -> (PyStr.len (doc_content doc) > 50)%Z.
Proof.
  intros Hst.
  pose (P := fun st : CrawlState =>
    forall doc, doc ∈ documents st -> (PyStr.len (doc_content doc) > 50)%Z).
  change (P st).
  eapply (scrape_page_invariant goto max_links max_depth (fun _ _ => True) P);
    [| | |exact I| |exact Hst].
  - intros u d s _ _ _ HP. exact HP.
  - intros u d soup doc s _ _ _ [Hlen ->]%extract_Some _ HP doc'. simpl.
    rewrite elem_of_app, list_elem_of_singleton.
    intros [?| ->]; [by apply HP|done].
  - done.
  - intros doc Hin. simpl in Hin. by apply elem_of_nil in Hin.
Qed.

Lemma selected_browser_documents web url docs :
  selected_documents web url = Some (docs, true) ->
  Forall (fun doc => (PyStr.len (in_content doc) > 50)%Z) docs.
Proof.
  unfold selected_documents, _scrape_with_browser_sync.
  destruct (launch (web_browser web)); cbn [mbind option_bind]; [done|].
  destruct (crawl _ _ _ _) as [st|] eqn:Hst; cbn [mbind option_bind]; [|done].
  destruct (documents st) as [|d ds] eqn:Hdocs; [done|].
  intros [= <-].
  change (Forall (fun doc => (PyStr.len (in_content doc) > 50)%Z)
            (of_browser_doc <$> d :: ds)).
  apply Forall_fmap, Forall_forall. intros doc Hdoc. simpl.
  apply (crawl_documents_long _ _ _ _ _ Hst). by rewrite Hdocs.
Qed.

Lemma selected_reader_contents web url docs :
  selected_documents web url = Some (docs, false) ->
  in_content <$> docs
  = match async_read web url with
    | inl _ => []
    | inr regular_docs => rd_content <$> regular_docs
    end.
Proof.
  unfold selected_documents.
  destruct (_scrape_with_browser_sync _ _ _ _) as [[e|[|d ds]]|];
    cbn [mbind option_bind]; try done.
  all: intros [= <-]; destruct (async_read web url) as [e'|rds]; [done|];
    rewrite <- list_fmap_compose; by apply list_fmap_ext.
Qed.

Lemma initialize_success_documents {St} (client : StoreClient St) web
    request_url g s r g' s' called :
  initialize_knowledge client web request_url g s
    = Some (Response r, g', s', called) ->
  exists docs use_browser,
    selected_documents web (PyStr.strip request_url) = Some (docs, use_browser)
    /\ add_documents client (PyStr.strip request_url) use_browser docs s
       = (s', None)
    /\ msg_scraper (init_message r)
       = if use_browser then "browser" else "regular".
Proof.
  intros Hinit.
  destruct (initialize_knowledge_cases request_url g)
    as [Hbad|(Hagent & Hne & Hvalid)].
  { destruct (initialize_knowledge_invalid client web _ _ s Hbad)
      as (st & d & Heq & _). congruence. }
  destruct (initialize_knowledge_valid client web _ _ s Hagent Hne Hvalid)
    as (docs & ub & Hsel & Heq).
  rewrite Heq in Hinit. clear Heq.
  destruct docs as [|doc docs]; [done|].
  destruct (add_documents _ _ _ _ _) as [s1 [e|]] eqn:Hadd; [done|].
  injection Hinit as <- _ <- _.
  exists (doc :: docs), ub. by split_and!.
Qed.

(** The recording store receives the contents of the documents, in
    order. *)
Lemma add_documents_recording url use_browser docs s :
  add_documents recording_store url use_browser docs s
  = (s ++ (in_content <$> docs), None).
Proof.
  revert s. induction docs as [|doc docs IH]; intros s; cbn [add_documents].
  - by rewrite app_nil_r.
  - cbn [add_content recording_store]. rewrite IH.
    by rewrite <- app_assoc.
Qed.

(** C5, as amended: a page the crawler renders yields no document exactly
    when its whitespace-collapsed, trimmed text has at most 50 characters;
    a document the crawler emits carries that text, which is longer than
    50 characters, and so does every document a crawl returns and every
    document [initialize_knowledge] writes to the store when it reports
    the browser scraper.  The filter is the crawler's alone: when the
    endpoint falls back to the regular reader, the documents it writes
    are the reader's, with their content as it is, whatever its length. *)
Theorem extract_empty_iff_at_most_50 {St} (client : StoreClient St) web
    goto max_links max_depth seed :
  (forall page_url depth soup,
     (extract page_url depth soup = None
        <-> (PyStr.len (cleaned_text soup) <= 50)%Z)
     /\ forall doc, extract page_url depth soup = Some doc ->
          doc_content doc = PyStr.strip (PyStr.sub_ws (soup_text soup))
          /\ (PyStr.len (doc_content doc) > 50)%Z)
  /\ (exists st, crawl goto max_links max_depth seed = Some st
        /\ forall doc, doc ∈ documents st ->
             (PyStr.len (doc_content doc) > 50)%Z)
  /\ (forall request_url g s r g' s' called,
        initialize_knowledge client web request_url g s
          = Some (Response r, g', s', called) ->
        msg_scraper (init_message r) = "browser" ->
        exists docs,
          selected_documents web (PyStr.strip request_url) = Some (docs, true)
          /\ add_documents client (PyStr.strip request_url) true docs s
             = (s', None)
          /\ Forall (fun doc => (PyStr.len (in_content doc) > 50)%Z) docs)
  /\ (forall request_url g s r g' s' called,
        initialize_knowledge recording_store web request_url g s
          = Some (Response r, g', s', called) ->
        msg_scraper (init_message r) = "browser" ->
        exists texts,
          s' = s ++ texts
          /\ Forall (fun text_content => (PyStr.len text_content > 50)%Z) texts)
  /\ (forall request_url g s r g' s' called,
        initialize_knowledge client web request_url g s
          = Some (Response r, g', s', called) ->
        msg_scraper (init_message r) = "regular" ->
        exists docs,
          selected_documents web (PyStr.strip request_url) = Some (docs, false)
          /\ add_documents client (PyStr.strip request_url) false docs s
             = (s', None)
          /\ in_content <$> docs
             = match async_read web (PyStr.strip request_url) with
               | inl _ => []
               | inr regular_docs => rd_content <$> regular_docs
               end).
Proof.
  split_and!.
  - intros page_url depth soup. split.
    + unfold extract. case_bool_decide; split; (done || lia).
    + intros doc [Hlen ->]%extract_Some. done.
  - destruct (crawl_total goto max_links max_depth seed) as [st Hst].
    exists st. split; [done|]. by eapply crawl_documents_long.
  - intros request_url g s r g' s' called Hinit Hbrowser.
    destruct (initialize_success_documents _ _ _ _ _ _ _ _ _ Hinit)
      as (docs & ub & Hsel & Hadd & Hscr).
    rewrite Hbrowser in Hscr. destruct ub; [|done].
    exists docs. split_and!; [done|done|by eapply selected_browser_documents].
  - intros request_url g s r g' s' called Hinit Hbrowser.
    destruct (initialize_success_documents _ _ _ _ _ _ _ _ _ Hinit)
      as (docs & ub & Hsel & Hadd & Hscr).
    rewrite Hbrowser in Hscr. destruct ub; [|done].
    rewrite add_documents_recording in Hadd. injection Hadd as <-.
    exists (in_content <$> docs). split; [done|].
    apply Forall_fmap. by eapply selected_browser_documents.
  - intros request_url g s r g' s' called Hinit Hregular.
    destruct (initialize_success_documents _ _ _ _ _ _ _ _ _ Hinit)
      as (docs & ub & Hsel & Hadd & Hscr).
    rewrite Hregular in Hscr. destruct ub; [done|].
    exists docs. split_and!; [done|done|by apply selected_reader_contents].
Qed.

(** The seed page of the two-page site passes the filter, and the texts
    written for the site are those of its two pages. *)
Lemma extract_empty_iff_at_most_50_witness :
  extract Scenario.seed 0 Scenario.seed_soup
    = Some (page_document Scenario.seed 0 Scenario.seed_soup)
  /\ (PyStr.len (doc_content (page_document Scenario.seed 0 Scenario.seed_soup))
       > 50)%Z
  /\ exists r g' s' called texts,
       initialize_knowledge recording_store Scenario.web Scenario.seed
         Scenario.fresh [] = Some (Response r, g', s', called)
       /\ msg_scraper (init_message r) = "browser"
       /\ s' = [] ++ texts
       /\ Forall (fun text_content => (PyStr.len text_content > 50)%Z) texts.
Proof.
  assert (H : extract Scenario.seed 0 Scenario.seed_soup
              = Some (page_document Scenario.seed 0 Scenario.seed_soup))
    by reflexivity.
  destruct (extract_empty_iff_at_most_50 recording_store Scenario.web
              Scenario.site 2 3 Scenario.seed)
    as (Hextract & _ & _ & Hstored & _).
  split; [exact H|]. split.
  - exact (proj2 (proj2 (Hextract Scenario.seed 0%Z Scenario.seed_soup) _ H)).
  - destruct (initialize_knowledge recording_store Scenario.web Scenario.seed
                Scenario.fresh [])
      as [[[[[r|status detail] g'] s'] called]|]
      eqn:Hinit; [|vm_compute in Hinit; discriminate Hinit..].
    assert (Hbrowser : msg_scraper (init_message r) = "browser").
    { vm_compute in Hinit. injection Hinit as <- _ _ _. reflexivity. }
    destruct (Hstored Scenario.seed Scenario.fresh [] r g' s' called
                Hinit Hbrowser) as (texts & Hs' & Hlong).
    exists r, g', s', called, texts. by split_and!.
Defined.

(** A page of ten characters: the crawler drops it, the endpoint falls
    back to the regular reader, and the reader's ten characters are
    written to the store. *)
Lemma short_page_stored_through_reader :
  extract Scenario.seed 0
    {| soup_text := "Loading..."; soup_title := None; soup_hrefs := [] |} = None
  /\ (documents <$> crawl (browser_goto (web_browser short_web)) 2 3 Scenario.seed)
     = Some []
  /\ (fun '(res, _, s, called) => (res, s, called))
       <$> initialize_knowledge recording_store short_web Scenario.seed
             Scenario.fresh []
     = Some (Response
               {| init_success := true;
                  init_message :=
                    {| msg_url := Scenario.seed; msg_document_count := 1;
                       msg_scraper := "regular"; msg_warning := EmptyString |};
                  init_loaded_urls := [Scenario.seed] |},
             ["Loading..."], [BrowserScraper; RegularReader]).
Proof. split_and!; vm_compute; reflexivity. Qed.
